(** * Constant-expression evaluation of solc-typed-ast ([src/types/eval_const.ts])

    A shallow embedding of the evaluator: the value model, the constancy
    classifier [isConstant], the literal and operator evaluators and the
    recursive dispatcher [evalConstantExpr], followed by the properties
    established about them.

    Conventions of the model
    - a JavaScript [bigint] is a [Z]; the engine's limit on the size of a
      bigint is a field of the [Host] and is tested where a shift can pass
      it;
    - a [Decimal] of decimal.js is a sign, a coefficient and a base-10
      exponent, or one of NaN and the two infinities; a result whose
      exponent leaves the range of the library becomes an infinity or zero;
    - a thrown exception is the [Throw] outcome of the [Result] monad; the
      [expr] field of an [EvalError] is an [option Expression] that the
      catch blocks fill in;
    - a syntax tree is a finite term: the initializer of the declaration an
      identifier refers to is part of the tree, so references are acyclic. *)

From Stdlib Require Import ZArith List String Ascii Bool Lia.
Import ListNotations.

Local Open Scope string_scope.
Local Open Scope Z_scope.

(* ================================================================== *)
(** ** decimal.js, as far as the evaluator uses it *)
(* ================================================================== *)

Module Decimal.

(** [Finite neg c e] is the number [(-1)^neg * c * 10^e]. *)
Inductive t : Type :=
| NaN
| Infinity (neg : bool)
| Finite (neg : bool) (coef : N) (exp : Z).

(** [Decimal.set({ precision: 100 })]; the rounding mode stays the
    library's default, ROUND_HALF_UP (ties away from zero). *)
Definition precision : Z := 100.

Definition pow10 (k : Z) : Z := 10 ^ k.

Fixpoint digits_aux (fuel : nat) (c : Z) : Z :=
  match fuel with
  | O => 1
  | S fuel' => if c <? 10 then 1 else 1 + digits_aux fuel' (c / 10)
  end.

(** Number of decimal digits of a positive coefficient. *)
Definition digits (c : Z) : Z := digits_aux (Z.to_nat (Z.log2 c)) c.

Fixpoint strip_aux (fuel : nat) (c e : Z) : Z * Z :=
  match fuel with
  | O => (c, e)
  | S fuel' =>
      if (c mod 10 =? 0) && negb (c =? 0)
      then strip_aux fuel' (c / 10) (e + 1)
      else (c, e)
  end.

(** The library keeps no trailing zeros in a coefficient, and zero has
    exponent 0. *)
Definition normal (neg : bool) (c e : Z) : t :=
  if c <=? 0 then Finite neg 0 0
  else let '(c', e') := strip_aux (Z.to_nat (Z.log2 c)) c e in
       Finite neg (Z.to_N c') e'.

(** Round the coefficient to [precision] significant digits, half up. *)
Definition roundToPrecision (neg : bool) (c e : Z) : t :=
  let n := digits c in
  if n <=? precision then normal neg c e
  else
    let k := n - precision in
    let q := c / pow10 k in
    let r := c mod pow10 k in
    normal neg (if pow10 k <=? 2 * r then q + 1 else q) (e + k).

(** The exponent limits of the library, [maxE] and [minE] (9e15 and -9e15,
    the defaults, which the program leaves as they are). *)
Definition maxE : Z := 9000000000000000.
Definition minE : Z := -9000000000000000.

(** The overflow and underflow test that the library makes on the exponent
    of the leading digit: above [maxE] the number becomes an infinity,
    below [minE] it becomes zero, the sign being kept. *)
Definition inRange (d : t) : t :=
  match d with
  | Finite s c e =>
      if N.eqb c 0 then d
      else
        let lead := digits (Z.of_N c) - 1 + e in
        if maxE <? lead then Infinity s
        else if lead <? minE then Finite s 0 0
        else d
  | _ => d
  end.

(** [finalise(x, precision, ROUND_HALF_UP)] of a result handed to the
    caller: rounding to the precision, then the test of the exponent. *)
Definition finalise (neg : bool) (c e : Z) : t :=
  inRange (roundToPrecision neg c e).

Definition round (d : t) : t :=
  match d with
  | Finite s c e => finalise s (Z.of_N c) e
  | _ => d
  end.

Definition isZero (d : t) : bool :=
  match d with Finite _ c _ => N.eqb c 0 | _ => false end.

Definition isNaN (d : t) : bool :=
  match d with NaN => true | _ => false end.

Definition isFinite (d : t) : bool :=
  match d with Finite _ _ _ => true | _ => false end.

(** [negated]: no rounding. *)
Definition negated (d : t) : t :=
  match d with
  | NaN => NaN
  | Infinity s => Infinity (negb s)
  | Finite s c e => Finite (negb s) c e
  end.

(** [isInt] / [isInteger]: finite and without a fractional part. *)
Definition isInt (d : t) : bool :=
  match d with
  | Finite _ c e =>
      if 0 <=? e then true else Z.of_N c mod pow10 (- e) =? 0
  | _ => false
  end.

Definition signZ (neg : bool) : Z := if neg then -1 else 1.

(** [BigInt(d.toFixed())] for a [d] with [isInt d]: [toFixed] prints the
    integer in plain notation (and minus zero as "0"). *)
Definition toBigInt (d : t) : Z :=
  match d with
  | Finite s c e =>
      signZ s * (if 0 <=? e then Z.of_N c * pow10 e else Z.of_N c / pow10 (- e))
  | _ => 0
  end.

(** [new Decimal(v.toString())] for a bigint [v]: exact, the constructor
    does not round to [precision].  (The exponent test of the constructor
    is out of reach: no engine holds a bigint of 9e15 digits.) *)
Definition ofBigInt (v : Z) : t := normal (v <? 0) (Z.abs v) 0.

(** Magnitudes of two finite numbers brought to a common exponent. *)
Definition align (c1 e1 c2 e2 : Z) : Z * Z * Z :=
  let e := Z.min e1 e2 in
  (c1 * pow10 (e1 - e), c2 * pow10 (e2 - e), e).

(** [cmp]: [None] stands for the NaN the library returns when an operand
    is NaN. *)
Definition cmp (x y : t) : option comparison :=
  match x, y with
  | NaN, _ | _, NaN => None
  | Infinity sx, Infinity sy =>
      Some (if Bool.eqb sx sy then Eq else if sx then Lt else Gt)
  | Infinity sx, Finite _ _ _ => Some (if sx then Lt else Gt)
  | Finite _ _ _, Infinity sy => Some (if sy then Gt else Lt)
  | Finite sx cx ex, Finite sy cy ey =>
      let '(a, b, _) := align (Z.of_N cx) ex (Z.of_N cy) ey in
      Some (signZ sx * a ?= signZ sy * b)
  end.

Definition equals (x y : t) : bool :=
  match cmp x y with Some Eq => true | _ => false end.
Definition lessThan (x y : t) : bool :=
  match cmp x y with Some Lt => true | _ => false end.
Definition lessThanOrEqualTo (x y : t) : bool :=
  match cmp x y with Some Lt | Some Eq => true | _ => false end.
Definition greaterThan (x y : t) : bool :=
  match cmp x y with Some Gt => true | _ => false end.
Definition greaterThanOrEqualTo (x y : t) : bool :=
  match cmp x y with Some Gt | Some Eq => true | _ => false end.

(** Sum of two finite numbers of the same sign ([external] tells whether
    the result is rounded, as the library's flag of that name does). *)
Definition add_same (external : bool) (s : bool) (cx ex cy ey : Z) : t :=
  let fin := if external then finalise else normal in
  if (cx =? 0) || (cy =? 0) then
    if cy =? 0 then fin s cx ex else fin s cy ey
  else
    let '(a, b, e) := align cx ex cy ey in fin s (a + b) e.

(** Difference [x - y] of two finite numbers of the same sign [s]. *)
Definition sub_same (external : bool) (s : bool) (cx ex cy ey : Z) : t :=
  let fin := if external then finalise else normal in
  if (cx =? 0) || (cy =? 0) then
    if negb (cy =? 0) then fin (negb s) cy ey
    else if negb (cx =? 0) then fin s cx ex
    else Finite false 0 0
  else
    let '(a, b, e) := align cx ex cy ey in
    if a =? b then Finite false 0 0
    else if b <? a then fin s (a - b) e
    else fin (negb s) (b - a) e.

Definition plus_gen (external : bool) (x y : t) : t :=
  match x, y with
  | NaN, _ | _, NaN => NaN
  | Infinity sx, Infinity sy => if Bool.eqb sx sy then x else NaN
  | Infinity _, Finite _ _ _ => x
  | Finite _ _ _, Infinity _ => y
  | Finite sx cx ex, Finite sy cy ey =>
      if Bool.eqb sx sy
      then add_same external sx (Z.of_N cx) ex (Z.of_N cy) ey
      else sub_same external sx (Z.of_N cx) ex (Z.of_N cy) ey
  end.

Definition minus_gen (external : bool) (x y : t) : t :=
  match x, y with
  | NaN, _ | _, NaN => NaN
  | Infinity sx, Infinity sy => if Bool.eqb sx sy then NaN else x
  | Infinity _, Finite _ _ _ => x
  | Finite _ _ _, Infinity sy => Infinity (negb sy)
  | Finite sx cx ex, Finite sy cy ey =>
      if Bool.eqb sx sy
      then sub_same external sx (Z.of_N cx) ex (Z.of_N cy) ey
      else add_same external sx (Z.of_N cx) ex (Z.of_N cy) ey
  end.

Definition times_gen (external : bool) (x y : t) : t :=
  match x, y with
  | NaN, _ | _, NaN => NaN
  | Infinity sx, Infinity sy => Infinity (xorb sx sy)
  | Infinity sx, Finite sy cy _ =>
      if N.eqb cy 0 then NaN else Infinity (xorb sx sy)
  | Finite sx cx _, Infinity sy =>
      if N.eqb cx 0 then NaN else Infinity (xorb sx sy)
  | Finite sx cx ex, Finite sy cy ey =>
      if N.eqb cx 0 || N.eqb cy 0 then Finite (xorb sx sy) 0 0
      else (if external then finalise else normal)
             (xorb sx sy) (Z.of_N cx * Z.of_N cy) (ex + ey)
  end.

Definition plus : t -> t -> t := plus_gen true.
Definition minus : t -> t -> t := minus_gen true.
Definition times : t -> t -> t := times_gen true.

(** [div]: the quotient rounded to [precision] significant digits.  A zero
    divisor does not raise: the library answers NaN for 0/0 and a signed
    infinity otherwise. *)
Definition div (x y : t) : t :=
  match x, y with
  | NaN, _ | _, NaN => NaN
  | Infinity _, Infinity _ => NaN
  | Infinity sx, Finite sy _ _ => Infinity (xorb sx sy)
  | Finite sx _ _, Infinity sy => Finite (xorb sx sy) 0 0
  | Finite sx cx ex, Finite sy cy ey =>
      if N.eqb cx 0 then
        if N.eqb cy 0 then NaN else Finite (xorb sx sy) 0 0
      else if N.eqb cy 0 then Infinity (xorb sx sy)
      else
        let a := Z.of_N cx in
        let b := Z.of_N cy in
        let k := Z.max 0 (precision + 1 + digits b - digits a) in
        finalise (xorb sx sy) (a * pow10 k / b) (ex - ey - k)
  end.

(** [mod] with the library's default [modulo] mode (ROUND_DOWN): the
    remainder of the division truncated towards zero.  NaN when the
    divisor is zero. *)
Definition modulo (x y : t) : t :=
  match x, y with
  | NaN, _ | _, NaN => NaN
  | Infinity _, _ => NaN
  | Finite _ _ _, Infinity _ => round x
  | Finite sx cx ex, Finite sy cy ey =>
      if N.eqb cy 0 then NaN
      else if N.eqb cx 0 then round x
      else
        let '(a, b, _) := align (Z.of_N cx) ex (Z.of_N cy) ey in
        let q := Finite (xorb sx sy) (Z.to_N (a / b)) 0 in
        minus x (times_gen false q y)
  end.

(** [represents d z]: the finite number [d] is the integer [z]
    (cross-multiplied, so that no division is involved). *)
Definition represents (d : t) (z : Z) : Prop :=
  match d with
  | Finite s c e =>
      signZ s * Z.of_N c * pow10 (Z.max e 0) = z * pow10 (Z.max (- e) 0)
  | _ => False
  end.

(** *** The constructor on strings

    [new Decimal(s)] for a text [s] without underscores (the evaluator
    removes them first): an optional sign, then a decimal literal
    ([digits[.digits]] or [.digits], with an optional exponent), or
    [Infinity], [NaN], or a literal in base 16, 2 or 8 behind its prefix,
    with an optional fraction and an optional binary exponent [p].
    [None] is the library's "[DecimalError] Invalid argument" exception.

    A radix literal is converted exactly.  Its binary exponent, when it is
    between 1 and 53, multiplies by the exact power of two; for the other
    exponents the library goes through the floating point of the host or
    through [Decimal.pow], and the model takes that product as the
    parameter [scale]. *)

Definition digitOf (base : Z) (c : ascii) : option Z :=
  let n := Z.of_nat (nat_of_ascii c) in
  let v := if (48 <=? n) && (n <=? 57) then n - 48
           else if (97 <=? n) && (n <=? 102) then n - 87
           else if (65 <=? n) && (n <=? 70) then n - 55
           else base in
  if v <? base then Some v else None.

(** The longest prefix of digits: its value on top of [acc], its length on
    top of [len], and the text that follows. *)
Fixpoint readDigits (base : Z) (s : string) (acc len : Z) : Z * Z * string :=
  match s with
  | String c s' =>
      match digitOf base c with
      | Some d => readDigits base s' (acc * base + d) (len + 1)
      | None => (acc, len, s)
      end
  | EmptyString => (acc, len, s)
  end.

Definition isEmpty (s : string) : bool :=
  match s with EmptyString => true | _ => false end.

(** An optional exponent part up to the end of the text: the letter
    [lower] or [upper], an optional sign, decimal digits. *)
Definition readExponentOf (lower upper : ascii) (s : string) : option Z :=
  match s with
  | EmptyString => Some 0
  | String c s' =>
      if Ascii.eqb c lower || Ascii.eqb c upper then
        let '(sg, s'') :=
          match s' with
          | String "-"%char r => (-1, r)
          | String "+"%char r => (1, r)
          | _ => (1, s')
          end in
        let '(v, n, rest) := readDigits 10 s'' 0 0 in
        if (0 <? n) && isEmpty rest then Some (sg * v) else None
      else None
  end.

Definition readExponent : string -> option Z := readExponentOf "e" "E".

(** Digits with an optional fraction: the digits read as one integer, the
    number of fraction digits, the rest of the text, and whether there is
    a digit at all. *)
Definition readMantissa (base : Z) (s : string) : Z * Z * string * bool :=
  let '(i, ni, r1) := readDigits base s 0 0 in
  match r1 with
  | String "."%char r =>
      let '(c, nf, r2) := readDigits base r i 0 in
      (c, nf, r2, (0 <? ni) || (0 <? nf))
  | _ => (i, 0, r1, 0 <? ni)
  end.

Definition parseDecimal (neg : bool) (s : string) : option t :=
  let '(c, nf, r2, ok) := readMantissa 10 s in
  if ok then
    match readExponent r2 with
    | Some e => Some (inRange (normal neg c (e - nf)))
    | None => None
    end
  else None.

Definition parseRadix (scale : t -> Z -> t) (neg : bool) (s : string)
    : option t :=
  match s with
  | String "0"%char (String x r) =>
      (* bits per digit: 0x, 0b, 0o *)
      let bits :=
        if Ascii.eqb x "x" || Ascii.eqb x "X" then 4
        else if Ascii.eqb x "b" || Ascii.eqb x "B" then 1
        else if Ascii.eqb x "o" || Ascii.eqb x "O" then 3
        else 0 in
      if bits =? 0 then None
      else
        let '(c, nf, r2, ok) := readMantissa (2 ^ bits) r in
        if ok then
          match readExponentOf "p" "P" r2 with
          | Some p =>
              if c =? 0 then Some (Finite neg 0 0)
              else
                (* c / base^nf, exactly: c * 5^m / 10^m for base^nf = 2^m *)
                let m := bits * nf in
                let v := normal neg (c * 5 ^ m) (- m) in
                if p =? 0 then Some v
                else if (0 <? p) && (p <? 54)
                then Some (times_gen false v (Finite false (Z.to_N (2 ^ p)) 0))
                else Some (scale v p)
          | None => None
          end
        else None
  | _ => None
  end.

Definition parseOther (scale : t -> Z -> t) (neg : bool) (s : string)
    : option t :=
  if String.eqb s "Infinity" then Some (Infinity neg)
  else if String.eqb s "NaN" then Some NaN
  else parseRadix scale neg s.

Definition parse (scale : t -> Z -> t) (s : string) : option t :=
  let '(neg, body) :=
    match s with
    | String "-"%char r => (true, r)
    | String "+"%char r => (false, r)
    | _ => (false, s)
    end in
  match parseDecimal neg body with
  | Some d => Some d
  | None => parseOther scale neg body
  end.

End Decimal.

(* ================================================================== *)
(** ** Values, syntax trees and exceptions *)
(* ================================================================== *)

(** [type Value = Decimal | boolean | string | bigint]. *)
Inductive Value : Type :=
| VDecimal (d : Decimal.t)
| VBoolean (b : bool)
| VString (s : string)
| VBigInt (n : Z).

Module LiteralKind.
(** The kinds that [evalLiteralImpl] tells apart; [Other] stands for any
    further member of the enumeration. *)
Inductive t : Type := Number | Bool | String | HexString | UnicodeString | Other.
End LiteralKind.

Module FunctionCallKind.
Inductive t : Type := FunctionCall | TypeConversion | StructConstructorCall.
End FunctionCallKind.

#[local] Set Warnings "-register-all".

(** The expression shapes of [../ast] that the evaluator inspects, with the
    fields it reads.  [OtherExpression] is any other node class; a
    [TupleExpression] component may be [null]; the declaration an
    identifier refers to may be missing or of another class. *)
Inductive Expression : Type :=
| Literal (kind : LiteralKind.t) (value hexValue : string)
    (subdenomination : option string)
| UnaryOperation (operator : string) (vSubExpression : Expression)
| BinaryOperation (operator : string)
    (vLeftExpression vRightExpression : Expression)
| TupleExpression (isInlineArray : bool)
    (vOriginalComponents : list (option Expression))
| Conditional (vCondition vTrueExpression vFalseExpression : Expression)
| Identifier (vReferencedDeclaration : option Declaration)
| FunctionCall (kind : FunctionCallKind.t) (vArguments : list Expression)
| OtherExpression (type : string)
with Declaration : Type :=
| VariableDeclaration (constant : bool) (vValue : option Expression)
| OtherDeclaration (type : string).

(** An error message is kept as its template and the things printed into
    it; the rendering ([pp], [str]) is not part of the model. *)
Inductive MsgArg : Type :=
| ArgText (s : string)
| ArgValue (v : Value)
| ArgExpr (e : option Expression).

Inductive Message : Type :=
| Msg (template : string) (args : list MsgArg).

Inductive EvalErrorClass : Type :=
| EvalErrorBase
| NonConstantExpressionErrorClass.

(** What a [throw] carries.  [Error name msg] is an exception object that is
    no instance of [EvalError] (a plain [Error], the library's
    [DecimalError], the [SyntaxError] of [BigInt(...)]).  [EvalError] has
    the mutable field [expr]; [cls] tells the subclass. *)
Inductive Exception : Type :=
| Error (name : string) (msg : Message)
| EvalError (cls : EvalErrorClass) (msg : Message) (expr : option Expression).

Definition NonConstantMessage (expr : option Expression) : Message :=
  Msg "Found non-constant expression {} during constant evaluation"
    [ArgExpr expr].

(** [new NonConstantExpressionError(expr)]. *)
Definition NonConstantExpressionError (expr : option Expression) : Exception :=
  EvalError NonConstantExpressionErrorClass (NonConstantMessage expr) expr.

(** [e instanceof EvalError]. *)
Definition instanceofEvalError (e : Exception) : bool :=
  match e with EvalError _ _ _ => true | Error _ _ => false end.

(** [e.expr]. *)
Definition exprOf (e : Exception) : option Expression :=
  match e with EvalError _ _ expr => expr | Error _ _ => None end.

(** The outcome of a call: a returned value or a thrown exception. *)
Inductive Result (A : Type) : Type :=
| Return (a : A)
| Throw (e : Exception).
Arguments Return {A} a.
Arguments Throw {A} e.

Definition bind {A B : Type} (r : Result A) (k : A -> Result B) : Result B :=
  match r with
  | Return a => k a
  | Throw e => Throw e
  end.

Notation "x <- c ;; k" := (bind c (fun x => k))
  (at level 61, c at next level, right associativity).

(** [try { body } catch (e) { if (e instanceof EvalError && e.expr ===
    undefined) e.expr = node; throw e; }] *)
Definition catchAttachIfUnset {A : Type} (node : Expression)
    (body : Result A) : Result A :=
  match body with
  | Throw (EvalError cls msg None) => Throw (EvalError cls msg (Some node))
  | _ => body
  end.

(** [try { body } catch (e) { if (e instanceof EvalError) e.expr = node;
    throw e; }] *)
Definition catchAttach {A : Type} (node : Expression)
    (body : Result A) : Result A :=
  match body with
  | Throw (EvalError cls msg _) => Throw (EvalError cls msg (Some node))
  | _ => body
  end.

(** JavaScript truthiness of a [Value], as the conditional operator tests
    it: a [Decimal] is an object and always truthy. *)
Definition truthy (v : Value) : bool :=
  match v with
  | VDecimal _ => true
  | VBoolean b => b
  | VString s => negb (Decimal.isEmpty s)
  | VBigInt n => negb (n =? 0)
  end.

(* ================================================================== *)
(** ** The value model: promotion and demotion *)
(* ================================================================== *)

Definition promoteToDec (v : Value) : Result Decimal.t :=
  match v with
  | VBigInt n => Return (Decimal.ofBigInt n)
  | VDecimal d => Return d
  | _ => Throw (Error "Error" (Msg "Expected number not {}" [ArgValue v]))
  end.

Definition demoteFromDec (d : Decimal.t) : Value :=
  if Decimal.isInt d then VBigInt (Decimal.toBigInt d) else VDecimal d.

(* ================================================================== *)
(** ** The constancy classifier *)
(* ================================================================== *)

Fixpoint isConstant (expr : Expression) : bool :=
  match expr with
  | Literal _ _ _ _ => true
  | UnaryOperation _ sub => isConstant sub
  | BinaryOperation _ l r => isConstant l && isConstant r
  | TupleExpression isInlineArray components =>
      negb isInlineArray &&
      match components with
      | [Some c] => isConstant c
      | _ => false
      end
  | Conditional c t f => isConstant c && isConstant t && isConstant f
  | Identifier (Some (VariableDeclaration constant (Some v))) =>
      constant && isConstant v
  | Identifier _ => false
  | FunctionCall kind args =>
      match kind, args with
      | FunctionCallKind.TypeConversion, a :: _ => isConstant a
      | _, _ => false
      end
  | OtherExpression _ => false
  end.

(* ================================================================== *)
(** ** Literal and operator evaluators *)
(* ================================================================== *)

(** Modelled from the spec: [BINARY_OPERATOR_GROUPS] of [./utils], which is
    not among the sources; the five groups are those of section 4.4. *)
Module BINARY_OPERATOR_GROUPS.
Definition Logical : list string := ["&&"; "||"].
Definition Equality : list string := ["=="; "!="].
Definition Comparison : list string := ["<"; "<="; ">"; ">="].
Definition Arithmetic : list string := ["+"; "-"; "*"; "/"; "%"; "**"].
Definition Bitwise : list string := ["<<"; ">>"; "|"; "&"; "^"].
End BINARY_OPERATOR_GROUPS.

(** [Array.prototype.includes] on strings. *)
Definition includes (l : list string) (s : string) : bool :=
  existsb (String.eqb s) l.

(** [value.replaceAll(c, "")] for a one-character [c]. *)
Fixpoint removeAll (c : ascii) (s : string) : string :=
  match s with
  | EmptyString => EmptyString
  | String a s' =>
      if Ascii.eqb a c then removeAll c s' else String a (removeAll c s')
  end.

Definition EvalError_ (template : string) (args : list MsgArg) : Exception :=
  EvalError EvalErrorBase (Msg template args) None.

(** What the evaluator takes from its environment beyond this model:
    - [pow] is [Decimal.prototype.pow]; the library computes powers
      through floating-point estimates of the host;
    - [maxBigIntBits] is the largest number of bits a bigint of the engine
      may have; a shift whose result would be longer throws a
      [RangeError];
    - [scaleByPowerOfTwo] is the product by which the constructor of the
      library applies a binary exponent that is negative or at least 54
      (see [Decimal.parse]).
    The evaluator and the statements about it are for any such host. *)
Record Host : Type := {
  pow : Decimal.t -> Decimal.t -> Decimal.t;
  maxBigIntBits : Z;
  scaleByPowerOfTwo : Decimal.t -> Z -> Decimal.t
}.

(** A bigint that the engine can hold. *)
Definition fitsBigInt (host : Host) (n : Z) : bool :=
  (n =? 0) || (Z.log2 (Z.abs n) <? maxBigIntBits host).

Definition RangeError_ : Exception :=
  Error "RangeError" (Msg "Maximum BigInt size exceeded" []).

(** [x << y] on bigints: for a negative [y] the floor of [x / 2^(-y)],
    else [x * 2^y], which the engine refuses when it is too long. *)
Definition leftShift (host : Host) (x y : Z) : Result Value :=
  if (0 <? y) && negb (fitsBigInt host (Z.shiftl x y))
  then Throw RangeError_
  else Return (VBigInt (Z.shiftl x y)).

(** [x >> y] on bigints is [x << -y]. *)
Definition signedRightShift (host : Host) (x y : Z) : Result Value :=
  leftShift host x (- y).

Section Evaluator.

Variable host : Host.

(** [SUBDENOMINATION_MULTIPLIERS.get] of [./utils], which is not among the
    sources: the multiplier of a unit, if the table has one. *)
Variable SUBDENOMINATION_MULTIPLIERS : string -> option Decimal.t.

Definition evalLiteralImpl (kind : LiteralKind.t) (value : string)
    (subdenomination : option string) : Result Value :=
  match kind with
  | LiteralKind.Bool => Return (VBoolean (String.eqb value "true"))
  | LiteralKind.String | LiteralKind.UnicodeString | LiteralKind.HexString =>
      Return (VString value)
  | LiteralKind.Number =>
      match Decimal.parse (scaleByPowerOfTwo host) (removeAll "_" value) with
      | None =>
          Throw (Error "Error"
                   (Msg "[DecimalError] Invalid argument: {}"
                      [ArgText (removeAll "_" value)]))
      | Some dec =>
          (* [val] is a bigint when [dec.isInteger()], else [dec] itself *)
          let val :=
            if Decimal.isInt dec then VBigInt (Decimal.toBigInt dec)
            else VDecimal dec in
          match subdenomination with
          | Some unit_ =>
              if Decimal.isEmpty unit_ then Return val
              else
                match SUBDENOMINATION_MULTIPLIERS unit_ with
                | None =>
                    Throw (EvalError_ "Unknown denomination {}" [ArgText unit_])
                | Some multiplier =>
                    if negb (Decimal.isInt dec) then
                      (* [val instanceof Decimal] *)
                      Return (demoteFromDec (Decimal.times dec multiplier))
                    else if Decimal.isInt multiplier then
                      Return (VBigInt (Decimal.toBigInt dec
                                       * Decimal.toBigInt multiplier))
                    else
                      (* [BigInt(s)] rejects a text that is no integer *)
                      Throw (Error "SyntaxError"
                               (Msg "Cannot convert {} to a BigInt"
                                  [ArgValue (VDecimal multiplier)]))
                end
          | None => Return val
          end
      end
  | LiteralKind.Other =>
      Throw (EvalError_ "Unsupported literal kind {}" [])
  end.

Definition evalUnaryImpl (operator : string) (value : Value) : Result Value :=
  if String.eqb operator "!" then
    match value with
    | VBoolean b => Return (VBoolean (negb b))
    | _ => Throw (EvalError_ "Expected {} to be boolean" [ArgValue value])
    end
  else if String.eqb operator "~" then
    match value with
    | VBigInt n => Return (VBigInt (Z.lnot n))
    | _ => Throw (EvalError_ "Expected {} to be a bigint" [ArgValue value])
    end
  else if String.eqb operator "+" then
    match value with
    | VDecimal _ | VBigInt _ => Return value
    | _ => Throw (EvalError_ "Expected {} to be a bigint or a decimal"
                    [ArgValue value])
    end
  else if String.eqb operator "-" then
    match value with
    | VDecimal d => Return (VDecimal (Decimal.negated d))
    | VBigInt n => Return (VBigInt (- n))
    | _ => Throw (EvalError_ "Expected {} to be a bigint or a decimal"
                    [ArgValue value])
    end
  else Throw (EvalError_ "Unable to process {}{}"
                [ArgText operator; ArgValue value]).

Definition evalBinaryImpl (operator : string) (left right : Value)
    : Result Value :=
  if includes BINARY_OPERATOR_GROUPS.Logical operator then
    match left, right with
    | VBoolean l, VBoolean r =>
        if String.eqb operator "&&" then Return (VBoolean (l && r))
        else if String.eqb operator "||" then Return (VBoolean (l || r))
        else Throw (EvalError_ "Unknown logical operator {}" [ArgText operator])
    | _, _ =>
        Throw (EvalError_ "{} expects booleans not {} and {}"
                 [ArgText operator; ArgValue left; ArgValue right])
    end
  else if includes BINARY_OPERATOR_GROUPS.Equality operator then
    match left, right with
    | VString _, _ | _, VString _ =>
        Throw (EvalError_ "{} not allowed for strings {} and {}"
                 [ArgText operator; ArgValue left; ArgValue right])
    | _, _ =>
        let isEqual :=
          match left, right with
          | VDecimal l, VDecimal r => Decimal.equals l r
          | VBigInt l, VBigInt r => l =? r
          | VBoolean l, VBoolean r => Bool.eqb l r
          | _, _ => false
          end in
        if String.eqb operator "==" then Return (VBoolean isEqual)
        else if String.eqb operator "!=" then Return (VBoolean (negb isEqual))
        else Throw (EvalError_ "Unknown equality operator {}" [ArgText operator])
    end
  else if includes BINARY_OPERATOR_GROUPS.Comparison operator then
    leftDec <- promoteToDec left ;;
    rightDec <- promoteToDec right ;;
    if String.eqb operator "<" then
      Return (VBoolean (Decimal.lessThan leftDec rightDec))
    else if String.eqb operator "<=" then
      Return (VBoolean (Decimal.lessThanOrEqualTo leftDec rightDec))
    else if String.eqb operator ">" then
      Return (VBoolean (Decimal.greaterThan leftDec rightDec))
    else if String.eqb operator ">=" then
      Return (VBoolean (Decimal.greaterThanOrEqualTo leftDec rightDec))
    else Throw (EvalError_ "Unknown comparison operator {}" [ArgText operator])
  else if includes BINARY_OPERATOR_GROUPS.Arithmetic operator then
    leftDec <- promoteToDec left ;;
    rightDec <- promoteToDec right ;;
    res <-
      (if String.eqb operator "+" then Return (Decimal.plus leftDec rightDec)
       else if String.eqb operator "-" then Return (Decimal.minus leftDec rightDec)
       else if String.eqb operator "*" then Return (Decimal.times leftDec rightDec)
       else if String.eqb operator "/" then Return (Decimal.div leftDec rightDec)
       else if String.eqb operator "%" then Return (Decimal.modulo leftDec rightDec)
       else if String.eqb operator "**" then
         Return (pow host leftDec rightDec)
       else Throw (EvalError_ "Unknown arithmetic operator {}"
                     [ArgText operator])) ;;
    Return (demoteFromDec res)
  else if includes BINARY_OPERATOR_GROUPS.Bitwise operator then
    match left, right with
    | VBigInt l, VBigInt r =>
        if String.eqb operator "<<" then leftShift host l r
        else if String.eqb operator ">>" then signedRightShift host l r
        else if String.eqb operator "|" then Return (VBigInt (Z.lor l r))
        else if String.eqb operator "&" then Return (VBigInt (Z.land l r))
        else if String.eqb operator "^" then Return (VBigInt (Z.lxor l r))
        else Throw (EvalError_ "Unknown bitwise operator {}" [ArgText operator])
    | _, _ =>
        Throw (EvalError_ "{} expects integers not {} and {}"
                 [ArgText operator; ArgValue left; ArgValue right])
    end
  else Throw (EvalError_ "Unable to process {} {} {}"
                [ArgValue left; ArgText operator; ArgValue right]).

(* ================================================================== *)
(** ** The dispatcher *)
(* ================================================================== *)

(** [evalLiteral(node)], on the fields of the [Literal] node. *)
Definition evalLiteral (kind : LiteralKind.t) (value hexValue : string)
    (subdenomination : option string) : Result Value :=
  catchAttach (Literal kind value hexValue subdenomination)
    (evalLiteralImpl kind
       (match kind with LiteralKind.HexString => hexValue | _ => value end)
       subdenomination).

(** [evalUnary(node)] and [evalBinary(node)] call back into
    [evalConstantExpr]; the recursion is tied in the fixpoint below. *)
Definition evalUnary (evalConstantExpr : Expression -> Result Value)
    (operator : string) (vSubExpression : Expression) : Result Value :=
  catchAttachIfUnset (UnaryOperation operator vSubExpression)
    (v <- evalConstantExpr vSubExpression ;;
     evalUnaryImpl operator v).

Definition evalBinary (evalConstantExpr : Expression -> Result Value)
    (operator : string) (vLeftExpression vRightExpression : Expression)
    : Result Value :=
  catchAttachIfUnset (BinaryOperation operator vLeftExpression vRightExpression)
    (l <- evalConstantExpr vLeftExpression ;;
     r <- evalConstantExpr vRightExpression ;;
     evalBinaryImpl operator l r).

Definition UnableToEvaluate (node : Expression) : Exception :=
  EvalError EvalErrorBase
    (Msg "Unable to evaluate constant expression {}" [ArgExpr (Some node)])
    (Some node).

(** A recursive call on [undefined] (a missing component, initializer or
    argument) fails the classifier check at once; the check at the entry
    keeps these branches from being reached. *)
Fixpoint evalConstantExpr (node : Expression) : Result Value :=
  if negb (isConstant node) then Throw (NonConstantExpressionError (Some node))
  else
    match node with
    | Literal kind value hexValue subdenomination =>
        evalLiteral kind value hexValue subdenomination
    | UnaryOperation operator sub => evalUnary evalConstantExpr operator sub
    | BinaryOperation operator l r => evalBinary evalConstantExpr operator l r
    | TupleExpression _ components =>
        match components with
        | Some c :: _ => evalConstantExpr c
        | _ => Throw (NonConstantExpressionError None)
        end
    | Conditional c t f =>
        cond <- evalConstantExpr c ;;
        if truthy cond then evalConstantExpr t else evalConstantExpr f
    | Identifier (Some (VariableDeclaration _ (Some v))) => evalConstantExpr v
    | Identifier (Some (VariableDeclaration _ None)) =>
        Throw (NonConstantExpressionError None)
    | Identifier _ => Throw (UnableToEvaluate node)
    | FunctionCall _ args =>
        match args with
        | a :: _ => evalConstantExpr a
        | [] => Throw (NonConstantExpressionError None)
        end
    | OtherExpression _ => Throw (UnableToEvaluate node)
    end.

End Evaluator.

(* ================================================================== *)
(** ** Vocabulary of the statements *)
(* ================================================================== *)

(** The numeric variants of [Value]. *)
Definition isNumeric (v : Value) : bool :=
  match v with
  | VBigInt _ | VDecimal _ => true
  | _ => false
  end.

(** A numeric value that is zero: [0n], or a [Decimal] zero of either sign. *)
Definition isZeroValue (v : Value) : bool :=
  match v with
  | VBigInt n => n =? 0
  | VDecimal d => Decimal.isZero d
  | _ => false
  end.


(** [Child node e]: evaluating the constant expression [node] makes a
    recursive call on [e]. *)
Inductive Child : Expression -> Expression -> Prop :=
| ChildUnary op s : Child (UnaryOperation op s) s
| ChildLeft op l r : Child (BinaryOperation op l r) l
| ChildRight op l r : Child (BinaryOperation op l r) r
| ChildTuple b c rest : Child (TupleExpression b (Some c :: rest)) c
| ChildCondition c t f : Child (Conditional c t f) c
| ChildTrue c t f : Child (Conditional c t f) t
| ChildFalse c t f : Child (Conditional c t f) f
| ChildInitializer k v :
    Child (Identifier (Some (VariableDeclaration k (Some v)))) v
| ChildArgument k a rest : Child (FunctionCall k (a :: rest)) a.

(** [Encloses node e]: [e] is [node] or lies below it along [Child]. *)
Inductive Encloses : Expression -> Expression -> Prop :=
| EnclosesSelf node : Encloses node node
| EnclosesChild node m e : Child node m -> Encloses m e -> Encloses node e.

(** [ArisesAt e cls msg]: the call frame of [e] itself raises the
    [EvalError] of class [cls] and message [msg]: either [e] fails the
    classifier check, or every recursive call of the frame returned a
    value and the literal or operator evaluator of [e] threw the error,
    still without an expression. *)
Inductive ArisesAt (host : Host)
    (table : string -> option Decimal.t)
    : Expression -> EvalErrorClass -> Message -> Prop :=
| ArisesNonConstant e :
    isConstant e = false ->
    ArisesAt host table e NonConstantExpressionErrorClass
      (NonConstantMessage (Some e))
| ArisesLiteral kind value hexValue unit_ cls msg :
    evalLiteralImpl host table kind
      (match kind with LiteralKind.HexString => hexValue | _ => value end)
      unit_ = Throw (EvalError cls msg None) ->
    ArisesAt host table (Literal kind value hexValue unit_) cls msg
| ArisesUnary op s v cls msg :
    evalConstantExpr host table s = Return v ->
    evalUnaryImpl op v = Throw (EvalError cls msg None) ->
    ArisesAt host table (UnaryOperation op s) cls msg
| ArisesBinary op l r vl vr cls msg :
    evalConstantExpr host table l = Return vl ->
    evalConstantExpr host table r = Return vr ->
    evalBinaryImpl host op vl vr = Throw (EvalError cls msg None) ->
    ArisesAt host table (BinaryOperation op l r) cls msg.

Definition isBoolean (v : Value) : bool :=
  match v with VBoolean _ => true | _ => false end.

Definition isBigInt (v : Value) : bool :=
  match v with VBigInt _ => true | _ => false end.

(** A value in demoted form: a [Decimal] only when it is no integer. *)
Definition demoted (v : Value) : bool :=
  match v with
  | VDecimal d => negb (Decimal.isInt d)
  | _ => true
  end.

(** A bigint, or a [Decimal] that is neither NaN nor an infinity. *)
Definition isFiniteValue (v : Value) : bool :=
  match v with
  | VBigInt _ => true
  | VDecimal d => Decimal.isFinite d
  | _ => false
  end.

(** A number of moderate size: a bigint of at most a thousand digits, or a
    finite [Decimal] with a coefficient of at most a thousand digits and an
    exponent between -1000 and 1000. *)
Definition isModerate (v : Value) : bool :=
  match v with
  | VBigInt n => Z.abs n <? 10 ^ 1000
  | VDecimal (Decimal.Finite _ c e) =>
      (Z.of_N c <? 10 ^ 1000) && (-1000 <=? e) && (e <=? 1000)
  | _ => false
  end.

(** The shape of what the literal and operator evaluators throw as an
    [EvalError]: the base class, no expression yet, and a message other
    than the dispatcher's own "Unable to evaluate ...". *)
Definition raisedByImpl (ex : Exception) : Prop :=
  match ex with
  | EvalError cls (Msg template _) oe =>
      cls = EvalErrorBase /\ oe = None
      /\ String.eqb template "Unable to evaluate constant expression {}" = false
  | Error _ _ => True
  end.


(** An instance of [pow] for closed examples: the exact power, rounded,
    for a natural exponent and NaN elsewhere.  No example below evaluates
    [**]; the general statements hold for every [pow]. *)
Definition examplePow (x y : Decimal.t) : Decimal.t :=
  match x, y with
  | Decimal.Finite sx cx ex, Decimal.Finite false _ _ =>
      if Decimal.isInt y then
        let n := Decimal.toBigInt y in
        Decimal.finalise (sx && Z.odd n) (Z.of_N cx ^ n) (ex * n)
      else Decimal.NaN
  | _, _ => Decimal.NaN
  end.

(** The host of the closed examples: [examplePow], bigints of up to 2^30
    bits (the limit of V8, the engine of Node.js, on 64-bit platforms),
    and an exact product for the binary exponents of radix literals, which
    no example below uses. *)
Definition exampleHost : Host := {|
  pow := examplePow;
  maxBigIntBits := 2 ^ 30;
  scaleByPowerOfTwo := fun d p =>
    if 0 <=? p
    then Decimal.times_gen false d (Decimal.Finite false (Z.to_N (2 ^ p)) 0)
    else Decimal.times_gen false d
           (Decimal.Finite false (Z.to_N (5 ^ (- p))) p)
|}.

(** Modelled from the spec: the multiplier table of [./utils], which is not
    among the sources, for the units that sections 4.3 and 8 name; minutes
    count 60 (section 8, scenario 2), the other factors are those of the
    source language. *)
Definition specMultipliers (unit_ : string) : option Decimal.t :=
  if String.eqb unit_ "seconds" then Some (Decimal.ofBigInt 1)
  else if String.eqb unit_ "minutes" then Some (Decimal.ofBigInt 60)
  else if String.eqb unit_ "hours" then Some (Decimal.ofBigInt 3600)
  else if String.eqb unit_ "days" then Some (Decimal.ofBigInt 86400)
  else if String.eqb unit_ "weeks" then Some (Decimal.ofBigInt 604800)
  else if String.eqb unit_ "wei" then Some (Decimal.ofBigInt 1)
  else if String.eqb unit_ "gwei" then Some (Decimal.ofBigInt (10 ^ 9))
  else if String.eqb unit_ "ether" then Some (Decimal.ofBigInt (10 ^ 18))
  else None.

(* ================================================================== *)
(** ** Facts about the decimal model *)
(* ================================================================== *)

Lemma strip_aux_spec (fuel : nat) :
  forall c e c' e',
    0 < c ->
    Decimal.strip_aux fuel c e = (c', e') ->
    0 < c' /\ e <= e' /\ c = c' * 10 ^ (e' - e).
Proof.
  induction fuel as [|fuel IH]; intros c e c' e' Hc Hs; simpl in Hs.
  - inversion Hs; subst. rewrite Z.sub_diag. simpl. lia.
  - destruct ((c mod 10 =? 0) && negb (c =? 0)) eqn:Hz.
    + apply andb_true_iff in Hz. destruct Hz as [Hm _].
      apply Z.eqb_eq in Hm.
      assert (Hdiv : c = 10 * (c / 10)).
      { pose proof (Z.div_mod c 10). lia. }
      assert (Hpos : 0 < c / 10) by lia.
      destruct (IH _ _ _ _ Hpos Hs) as (Hc' & He & Heq).
      repeat split; try lia.
      replace (e' - e) with (Z.succ (e' - (e + 1))) by lia.
      rewrite Z.pow_succ_r by lia. lia.
    + inversion Hs; subst. rewrite Z.sub_diag. simpl. lia.
Qed.

Lemma normal_spec (neg : bool) (c e : Z) :
  0 < c ->
  exists c' e',
    Decimal.normal neg c e = Decimal.Finite neg (Z.to_N c') e'
    /\ 0 < c' /\ e <= e' /\ c = c' * 10 ^ (e' - e).
Proof.
  intros Hc. unfold Decimal.normal.
  destruct (c <=? 0) eqn:Hle; [apply Z.leb_le in Hle; lia|].
  destruct (Decimal.strip_aux (Z.to_nat (Z.log2 c)) c e) as [c' e'] eqn:Hs.
  exists c', e'. split; [reflexivity|].
  eapply strip_aux_spec; eauto.
Qed.

Lemma ofBigInt_represents (n : Z) :
  Decimal.represents (Decimal.ofBigInt n) n.
Proof.
  unfold Decimal.ofBigInt.
  destruct (Z.eq_dec n 0) as [->|Hn].
  - reflexivity.
  - destruct (normal_spec (n <? 0) (Z.abs n) 0) as (c' & e' & Heq & Hc' & He & Hv);
      [lia|].
    rewrite Heq. unfold Decimal.represents, Decimal.pow10.
    rewrite Z2N.id by lia.
    rewrite Z.sub_0_r in Hv.
    rewrite (Z.max_l e' 0) by lia.
    rewrite (Z.max_r (- e') 0) by lia.
    change (10 ^ 0) with 1.
    unfold Decimal.signZ.
    destruct (n <? 0) eqn:Hneg;
      [apply Z.ltb_lt in Hneg | apply Z.ltb_ge in Hneg]; lia.
Qed.

Lemma isInt_represents (d : Decimal.t) :
  Decimal.isInt d = true <-> exists z, Decimal.represents d z.
Proof.
  destruct d as [|s|s c e]; simpl;
    try (split; [discriminate | intros [z []]]).
  unfold Decimal.pow10.
  destruct (0 <=? e) eqn:He; [apply Z.leb_le in He | apply Z.leb_gt in He].
  - split; [intros _ | reflexivity].
    exists (Decimal.signZ s * Z.of_N c * 10 ^ e).
    rewrite (Z.max_l e 0), (Z.max_r (- e) 0) by lia.
    change (10 ^ 0) with 1. lia.
  - rewrite (Z.max_r e 0), (Z.max_l (- e) 0) by lia.
    change (10 ^ 0) with 1.
    assert (Hp : 0 < 10 ^ (- e)) by (apply Z.pow_pos_nonneg; lia).
    split.
    + intros Hm. apply Z.eqb_eq in Hm.
      exists (Decimal.signZ s * (Z.of_N c / 10 ^ (- e))).
      pose proof (Z.div_mod (Z.of_N c) (10 ^ (- e))). nia.
    + intros [z Hz]. apply Z.eqb_eq.
      assert (Hc : Z.of_N c = (Decimal.signZ s * z) * 10 ^ (- e)).
      { unfold Decimal.signZ in *. destruct s; lia. }
      rewrite Hc. apply Z.mod_mul. lia.
Qed.

Lemma toBigInt_represents (d : Decimal.t) (z : Z) :
  Decimal.represents d z -> Decimal.toBigInt d = z.
Proof.
  destruct d as [|s|s c e]; simpl; try contradiction.
  unfold Decimal.pow10.
  destruct (0 <=? e) eqn:He; [apply Z.leb_le in He | apply Z.leb_gt in He].
  - rewrite (Z.max_l e 0), (Z.max_r (- e) 0) by lia.
    change (10 ^ 0) with 1. lia.
  - rewrite (Z.max_r e 0), (Z.max_l (- e) 0) by lia.
    change (10 ^ 0) with 1.
    assert (Hp : 0 < 10 ^ (- e)) by (apply Z.pow_pos_nonneg; lia).
    intros Hz.
    assert (Hc : Z.of_N c = (Decimal.signZ s * z) * 10 ^ (- e)).
    { unfold Decimal.signZ in *. destruct s; lia. }
    rewrite Hc, Z.div_mul by lia.
    unfold Decimal.signZ. destruct s; lia.
Qed.

Lemma represents_unique (d : Decimal.t) (z z' : Z) :
  Decimal.represents d z -> Decimal.represents d z' -> z = z'.
Proof.
  intros H H'. apply toBigInt_represents in H, H'. congruence.
Qed.

(** [demoteFromDec], read on the number its argument stands for. *)
Lemma demoteFromDec_integral (d : Decimal.t) (z : Z) :
  Decimal.represents d z -> demoteFromDec d = VBigInt z.
Proof.
  intros H. unfold demoteFromDec.
  rewrite (proj2 (isInt_represents d)) by eauto.
  now rewrite (toBigInt_represents d z H).
Qed.


(* ================================================================== *)
(** ** The entry check and the literal evaluator *)
(* ================================================================== *)

(** The body of [evalConstantExpr], one unfolding. *)
Lemma evalConstantExpr_unfold host table (node : Expression) :
  evalConstantExpr host table node =
  if negb (isConstant node) then Throw (NonConstantExpressionError (Some node))
  else
    match node with
    | Literal kind value hexValue subdenomination =>
        evalLiteral host table kind value hexValue subdenomination
    | UnaryOperation operator sub =>
        evalUnary (evalConstantExpr host table) operator sub
    | BinaryOperation operator l r =>
        evalBinary host (evalConstantExpr host table) operator l r
    | TupleExpression _ components =>
        match components with
        | Some c :: _ => evalConstantExpr host table c
        | _ => Throw (NonConstantExpressionError None)
        end
    | Conditional c t f =>
        cond <- evalConstantExpr host table c ;;
        if truthy cond then evalConstantExpr host table t
        else evalConstantExpr host table f
    | Identifier (Some (VariableDeclaration _ (Some v))) =>
        evalConstantExpr host table v
    | Identifier (Some (VariableDeclaration _ None)) =>
        Throw (NonConstantExpressionError None)
    | Identifier _ => Throw (UnableToEvaluate node)
    | FunctionCall _ args =>
        match args with
        | a :: _ => evalConstantExpr host table a
        | [] => Throw (NonConstantExpressionError None)
        end
    | OtherExpression _ => Throw (UnableToEvaluate node)
    end.
Proof. destruct node; reflexivity. Qed.

(** C1. Whatever the shape of [node], when [isConstant node] is false
    [evalConstantExpr node] throws the [NonConstantExpressionError] built
    on [node] itself, an instance of [EvalError]: the check precedes the
    dispatch, so no operand is visited and no other error can come first. *)
Theorem evalConstantExpr_rejects_non_constant host table (node : Expression) :
  isConstant node = false ->
  evalConstantExpr host table node
    = Throw (NonConstantExpressionError (Some node))
  /\ instanceofEvalError (NonConstantExpressionError (Some node)) = true
  /\ exprOf (NonConstantExpressionError (Some node)) = Some node.
Proof.
  intros Hnc. rewrite evalConstantExpr_unfold, Hnc. simpl. auto.
Qed.

Lemma evalConstantExpr_rejects_non_constant_witness :
  let inner := Identifier None in
  let node := UnaryOperation "!" inner in
  isConstant node = false
  /\ evalConstantExpr exampleHost specMultipliers node
       = Throw (NonConstantExpressionError (Some node)).
Proof.
  split; [reflexivity|].
  apply (evalConstantExpr_rejects_non_constant exampleHost specMultipliers
           (UnaryOperation "!" (Identifier None))).
  reflexivity.
Defined.

(** C10. A literal of kind [Bool] always evaluates, whatever its raw text
    and its other fields: to [true] exactly when the text is "true", and to
    [false] for every other text. *)
Theorem evalLiteral_bool host table (value hexValue : string)
    (subdenomination : option string) :
  exists b : bool,
    evalLiteral host table LiteralKind.Bool value hexValue subdenomination
      = Return (VBoolean b)
    /\ evalLiteralImpl host table LiteralKind.Bool value subdenomination
      = Return (VBoolean b)
    /\ (b = true <-> value = "true").
Proof.
  exists (String.eqb value "true"). repeat split.
  - apply String.eqb_eq.
  - apply String.eqb_eq.
Qed.

(* ================================================================== *)
(** ** Promotion and demotion *)
(* ================================================================== *)

Lemma promoteToDec_numeric (v : Value) :
  isNumeric v = true ->
  exists d, promoteToDec v = Return d
            /\ match v with
               | VBigInt n => Decimal.represents d n
               | VDecimal d' => d = d'
               | _ => False
               end.
Proof.
  destruct v as [d|b|s|n]; simpl; try discriminate; intros _.
  - now exists d.
  - exists (Decimal.ofBigInt n). split; [reflexivity|].
    apply ofBigInt_represents.
Qed.

(** C4. For a Boolean or a String, [promoteToDec] throws an object built
    by [new Error(...)]: it is no instance of [EvalError] and has no [expr]
    field, so the catch blocks of the callers, which only fill in
    [EvalError]s, pass it on without an expression. *)
Theorem promoteToDec_mismatch_is_plain_error (v : Value) :
  isNumeric v = false ->
  exists msg,
    promoteToDec v = Throw (Error "Error" msg)
    /\ instanceofEvalError (Error "Error" msg) = false
    /\ forall node, catchAttachIfUnset node (promoteToDec v) = promoteToDec v.
Proof.
  destruct v as [d|b|s|n]; simpl; try discriminate; intros _;
    eexists; repeat split.
Qed.

Lemma promoteToDec_mismatch_is_plain_error_witness :
  isNumeric (VBoolean true) = false
  /\ exists msg, promoteToDec (VBoolean true) = Throw (Error "Error" msg)
  /\ (fun host table =>
        evalConstantExpr host table
          (BinaryOperation "<"
             (Literal LiteralKind.Bool "true" "" None)
             (Literal LiteralKind.Number "1" "" None)))
     = (fun _ _ =>
          Throw (Error "Error"
                   (Msg "Expected number not {}" [ArgValue (VBoolean true)]))).
Proof.
  split; [reflexivity|].
  destruct (promoteToDec_mismatch_is_plain_error (VBoolean true) eq_refl)
    as (msg & H & _).
  exists msg. split; [exact H | reflexivity].
Defined.




(* ================================================================== *)
(** ** Binary operators *)
(* ================================================================== *)

Lemma normal_finite (neg : bool) (c e : Z) :
  exists c' e', Decimal.normal neg c e = Decimal.Finite neg c' e'.
Proof.
  unfold Decimal.normal. destruct (c <=? 0); [now eexists; eexists|].
  destruct (Decimal.strip_aux _ c e). now eexists; eexists.
Qed.

Lemma promoteToDec_zero (r : Value) :
  isZeroValue r = true ->
  exists s e, promoteToDec r = Return (Decimal.Finite s 0 e).
Proof.
  destruct r as [d|b|s|n]; simpl; try discriminate.
  - destruct d as [|s|s c e]; simpl; try discriminate.
    intros H. apply N.eqb_eq in H. subst. now eexists; eexists.
  - intros H. apply Z.eqb_eq in H. subst. now exists false, 0.
Qed.

Lemma div_by_zero (a : Decimal.t) (s : bool) (e : Z) :
  exists d, Decimal.div a (Decimal.Finite s 0 e) = d
            /\ Decimal.isFinite d = false
            /\ (d = Decimal.NaN
                <-> Decimal.isZero a || Decimal.isNaN a = true).
Proof.
  eexists; split; [reflexivity|].
  destruct a as [|sa|sa ca ea]; simpl.
  - repeat split; auto.
  - repeat split; auto; discriminate.
  - destruct (N.eqb ca 0); simpl; repeat split; auto; discriminate.
Qed.

Lemma modulo_by_zero (a : Decimal.t) (s : bool) (e : Z) :
  Decimal.modulo a (Decimal.Finite s 0 e) = Decimal.NaN.
Proof. destruct a; reflexivity. Qed.

(** C2 (as stated) fails: 1 / 0 and 1 % 0 return a value, the [Decimal]
    infinity and NaN, whatever the [pow] of the library is. *)
Lemma evalBinaryImpl_division_by_zero_returns :
  (fun host => evalBinaryImpl host "/" (VBigInt 1) (VBigInt 0))
    = (fun _ => Return (VDecimal (Decimal.Infinity false)))
  /\ (fun host => evalBinaryImpl host "%" (VBigInt 1) (VBigInt 0))
    = (fun _ => Return (VDecimal Decimal.NaN)).
Proof. split; reflexivity. Qed.

(** C2 (amended). With numeric operands and a zero right operand, "/" and
    "%" throw nothing: they return a [Decimal] that is not finite.  "%"
    returns NaN; "/" returns NaN when the left operand is zero or NaN and
    an infinity otherwise. *)
Theorem evalBinaryImpl_zero_divisor host (op : string) (l r : Value) :
  op = "/" \/ op = "%" ->
  isNumeric l = true ->
  isZeroValue r = true ->
  exists a d,
    promoteToDec l = Return a
    /\ evalBinaryImpl host op l r = Return (VDecimal d)
    /\ Decimal.isFinite d = false
    /\ (op = "%" -> d = Decimal.NaN)
    /\ (op = "/" ->
        (d = Decimal.NaN <-> Decimal.isZero a || Decimal.isNaN a = true)).
Proof.
  intros Hop Hl Hr.
  destruct (promoteToDec_numeric l Hl) as (a & Ha & _).
  destruct (promoteToDec_zero r Hr) as (s & e & Hb).
  exists a.
  destruct Hop as [-> | ->]; unfold evalBinaryImpl; simpl;
    rewrite Ha, Hb; simpl.
  - destruct (div_by_zero a s e) as (d & Hd & Hfin & Hnan).
    exists d. rewrite Hd.
    assert (Hint : Decimal.isInt d = false) by (destruct d; simpl in *; congruence).
    unfold demoteFromDec. rewrite Hint.
    repeat split; auto; try discriminate; apply Hnan.
  - exists Decimal.NaN. rewrite modulo_by_zero.
    repeat split; auto; discriminate.
Qed.

Lemma evalBinaryImpl_zero_divisor_witness :
  isNumeric (VBigInt (-7)) = true
  /\ isZeroValue (VDecimal (Decimal.Finite true 0 0)) = true
  /\ exists a d,
       promoteToDec (VBigInt (-7)) = Return a
       /\ evalBinaryImpl exampleHost "/" (VBigInt (-7))
            (VDecimal (Decimal.Finite true 0 0)) = Return (VDecimal d)
       /\ Decimal.isFinite d = false.
Proof.
  split; [reflexivity|]. split; [reflexivity|].
  destruct (evalBinaryImpl_zero_divisor exampleHost "/" (VBigInt (-7))
              (VDecimal (Decimal.Finite true 0 0)) (or_introl eq_refl)
              eq_refl eq_refl) as (a & d & Ha & Hd & Hfin & _).
  exists a, d. auto.
Defined.

Lemma leftShift_down (host : Host) (x y : Z) :
  y <= 0 -> leftShift host x y = Return (VBigInt (Z.shiftl x y)).
Proof.
  intros Hy. unfold leftShift.
  destruct (0 <? y) eqn:H; [apply Z.ltb_lt in H; lia | reflexivity].
Qed.

Lemma leftShift_up (host : Host) (x y : Z) :
  0 < y ->
  leftShift host x y
  = if fitsBigInt host (x * 2 ^ y) then Return (VBigInt (x * 2 ^ y))
    else Throw RangeError_.
Proof.
  intros Hy. unfold leftShift. rewrite Z.shiftl_mul_pow2 by lia.
  destruct (0 <? y) eqn:H; [|apply Z.ltb_ge in H; lia]. simpl.
  destruct (fitsBigInt host (x * 2 ^ y)); reflexivity.
Qed.

(** The size test of a left shift, read on the operands. *)
Lemma fitsBigInt_shifted (host : Host) (x k : Z) :
  x <> 0 -> 0 <= k ->
  fitsBigInt host (x * 2 ^ k)
  = (Z.log2 (Z.abs x) + k <? maxBigIntBits host).
Proof.
  intros Hx Hk. unfold fitsBigInt.
  assert (Hp : 0 < 2 ^ k) by (apply Z.pow_pos_nonneg; lia).
  destruct (Z.eqb_spec (x * 2 ^ k) 0) as [H0|_]; [nia|]. simpl.
  rewrite Z.abs_mul, (Z.abs_eq (2 ^ k)) by lia.
  rewrite Z.log2_mul_pow2 by lia. f_equal; lia.
Qed.

(** C3 (as stated) fails: a negative shift amount shifts the other way and
    returns, [1n << -1n] is [0n] (on every host) and [4n >> -1n] is [8n]. *)
Lemma evalBinaryImpl_negative_shift_returns :
  (fun host => evalBinaryImpl host "<<" (VBigInt 1) (VBigInt (-1)))
    = (fun _ => Return (VBigInt 0))
  /\ evalBinaryImpl exampleHost ">>" (VBigInt 4) (VBigInt (-1))
     = Return (VBigInt 8).
Proof. split; reflexivity. Qed.

(** C3 (amended). On bigints [l] and [r] with [r] negative no [EvalError]
    is raised.  "<<" returns [l] shifted right by [-r], the floor of
    [l / 2^(-r)].  ">>" shifts left by [-r]: it returns [l * 2^(-r)] when
    that is a bigint the engine can hold, and throws the [RangeError] of
    the engine when it is not, which for a non-zero [l] is when the bits
    of [l] and the [-r] further bits pass the limit. *)
Theorem evalBinaryImpl_negative_shift host (l r : Z) :
  r < 0 ->
  evalBinaryImpl host "<<" (VBigInt l) (VBigInt r)
    = Return (VBigInt (l / 2 ^ (- r)))
  /\ (fitsBigInt host (l * 2 ^ (- r)) = true ->
      evalBinaryImpl host ">>" (VBigInt l) (VBigInt r)
        = Return (VBigInt (l * 2 ^ (- r))))
  /\ (fitsBigInt host (l * 2 ^ (- r)) = false ->
      evalBinaryImpl host ">>" (VBigInt l) (VBigInt r) = Throw RangeError_)
  /\ (l <> 0 ->
      fitsBigInt host (l * 2 ^ (- r))
      = (Z.log2 (Z.abs l) - r <? maxBigIntBits host)).
Proof.
  intros Hr. unfold evalBinaryImpl; simpl. unfold signedRightShift.
  rewrite leftShift_down by lia. rewrite leftShift_up by lia.
  repeat split.
  - do 2 f_equal. rewrite <- (Z.opp_involutive r) at 1.
    rewrite Z.shiftl_opp_r. apply Z.shiftr_div_pow2. lia.
  - now intros ->.
  - now intros ->.
  - intros Hl. rewrite fitsBigInt_shifted by lia. f_equal; lia.
Qed.

Lemma evalBinaryImpl_negative_shift_witness :
  -3 < 0
  /\ evalBinaryImpl exampleHost "<<" (VBigInt (-20)) (VBigInt (-3))
     = Return (VBigInt (-3))
  /\ evalBinaryImpl exampleHost ">>" (VBigInt (-20)) (VBigInt (-3))
     = Return (VBigInt (-160))
  /\ evalBinaryImpl exampleHost ">>" (VBigInt 1) (VBigInt (- 2 ^ 64))
     = Throw RangeError_.
Proof.
  split; [lia|].
  destruct (evalBinaryImpl_negative_shift exampleHost (-20) (-3))
    as (Hl & Hr & _); [lia|].
  split; [exact Hl|]. split; [apply Hr; reflexivity|].
  destruct (evalBinaryImpl_negative_shift exampleHost 1 (- 2 ^ 64))
    as (_ & _ & Hbig & Hfits); [reflexivity|].
  apply Hbig. rewrite Hfits by discriminate. reflexivity.
Defined.




(* ================================================================== *)
(** ** Conditionals and unit denominations *)
(* ================================================================== *)

(** C7. For a constant conditional whose condition evaluates to [v], the
    result is that of the selected branch and nothing else: the true
    branch when [v] is [true], the false branch when [v] is [false] (and,
    by the truthiness of JavaScript, the false branch for the bigint 0 and
    the empty string, the true branch for every other bigint and string
    and for every [Decimal]).  The outcome of the other branch, a value or
    an exception, has no part in it: a true condition with a true branch
    that evaluates to the bigint 1 gives the bigint 1 even if the false
    branch throws, and a false condition gives what the false branch
    gives even if the true branch throws. *)
Theorem evalConstantExpr_conditional host table (c t f : Expression) (v : Value) :
  isConstant (Conditional c t f) = true ->
  evalConstantExpr host table c = Return v ->
  evalConstantExpr host table (Conditional c t f)
    = match v with
      | VBoolean true => evalConstantExpr host table t
      | VBoolean false => evalConstantExpr host table f
      | VBigInt n =>
          if n =? 0 then evalConstantExpr host table f
          else evalConstantExpr host table t
      | VString s =>
          if String.eqb s "" then evalConstantExpr host table f
          else evalConstantExpr host table t
      | VDecimal _ => evalConstantExpr host table t
      end
  /\ (v = VBoolean true ->
      evalConstantExpr host table t = Return (VBigInt 1) ->
      evalConstantExpr host table (Conditional c t f) = Return (VBigInt 1))
  /\ (v = VBoolean false ->
      evalConstantExpr host table (Conditional c t f)
        = evalConstantExpr host table f).
Proof.
  intros Hc Hv.
  assert (Heq : evalConstantExpr host table (Conditional c t f)
                = (if truthy v then evalConstantExpr host table t
                   else evalConstantExpr host table f)).
  { rewrite (evalConstantExpr_unfold host table (Conditional c t f)), Hc.
    simpl. now rewrite Hv. }
  rewrite Heq. split; [|split].
  - destruct v as [d|[|]|s|n]; simpl; try reflexivity.
    + now destruct s.
    + now destruct (n =? 0).
  - now intros -> ->.
  - now intros ->.
Qed.

Lemma evalConstantExpr_conditional_witness :
  let yes := Literal LiteralKind.Bool "true" "" None in
  let no := Literal LiteralKind.Bool "false" "" None in
  let one := Literal LiteralKind.Number "1" "" None in
  let two := Literal LiteralKind.Number "2" "" None in
  let bad := UnaryOperation "!" one in
  isConstant (Conditional yes one bad) = true
  /\ isConstant (Conditional no bad two) = true
  /\ evalConstantExpr exampleHost specMultipliers yes = Return (VBoolean true)
  /\ evalConstantExpr exampleHost specMultipliers no = Return (VBoolean false)
  /\ evalConstantExpr exampleHost specMultipliers bad
     = Throw (EvalError EvalErrorBase
                (Msg "Expected {} to be boolean" [ArgValue (VBigInt 1)])
                (Some bad))
  /\ evalConstantExpr exampleHost specMultipliers (Conditional yes one bad)
     = Return (VBigInt 1)
  /\ evalConstantExpr exampleHost specMultipliers (Conditional no bad two)
     = Return (VBigInt 2).
Proof.
  do 5 (split; [reflexivity|]).
  split.
  - apply (evalConstantExpr_conditional exampleHost specMultipliers
             (Literal LiteralKind.Bool "true" "" None)
             (Literal LiteralKind.Number "1" "" None)
             (UnaryOperation "!" (Literal LiteralKind.Number "1" "" None))
             (VBoolean true));
      reflexivity.
  - rewrite (proj2 (proj2
               (evalConstantExpr_conditional exampleHost specMultipliers
                  (Literal LiteralKind.Bool "false" "" None)
                  (UnaryOperation "!" (Literal LiteralKind.Number "1" "" None))
                  (Literal LiteralKind.Number "2" "" None)
                  (VBoolean false) eq_refl eq_refl)) eq_refl).
    reflexivity.
Defined.



(* ================================================================== *)
(** ** Where an error gets its expression *)
(* ================================================================== *)

Lemma Child_inv (node m : Expression) :
  Child node m ->
  match node with
  | UnaryOperation _ s => m = s
  | BinaryOperation _ l r => m = l \/ m = r
  | TupleExpression _ (Some c :: _) => m = c
  | Conditional c t f => m = c \/ m = t \/ m = f
  | Identifier (Some (VariableDeclaration _ (Some v))) => m = v
  | FunctionCall _ (a :: _) => m = a
  | _ => False
  end.
Proof. destruct 1; auto. Qed.

(** Induction along the recursive calls of the evaluator. *)
Lemma Child_induction (P : Expression -> Prop) :
  (forall node, (forall m, Child node m -> P m) -> P node) ->
  forall node, P node.
Proof.
  intros step. fix IH 1. intros node. apply step.
  destruct node as [k v hv u | op s | op l r | b cs | c t f | d | k args | ty];
    intros m H; apply Child_inv in H.
  - contradiction.
  - rewrite H. apply IH.
  - destruct H as [H | H]; rewrite H; apply IH.
  - destruct cs as [|[c|] rest]; try contradiction. rewrite H. apply IH.
  - destruct H as [H | [H | H]]; rewrite H; apply IH.
  - destruct d as [[k [v|] | ty]|]; try contradiction. rewrite H. apply IH.
  - destruct args as [|a rest]; try contradiction. rewrite H. apply IH.
  - contradiction.
Qed.

Ltac case_split :=
  repeat match goal with
         | |- context [if ?c then _ else _] => destruct c
         | |- context [match ?x with _ => _ end] => destruct x
         end.

Lemma evalLiteralImpl_throw_unset host table kind value unit_ (e : Exception) :
  evalLiteralImpl host table kind value unit_ = Throw e -> exprOf e = None.
Proof.
  unfold evalLiteralImpl, EvalError_. case_split;
    intros H; inversion H; reflexivity.
Qed.

Lemma evalUnaryImpl_throw_unset (op : string) (v : Value) (e : Exception) :
  evalUnaryImpl op v = Throw e -> exprOf e = None.
Proof.
  unfold evalUnaryImpl, EvalError_. case_split;
    intros H; inversion H; reflexivity.
Qed.

Lemma evalBinaryImpl_throw_unset host (op : string) (l r : Value) (e : Exception) :
  evalBinaryImpl host op l r = Throw e -> exprOf e = None.
Proof.
  unfold evalBinaryImpl, EvalError_, bind, promoteToDec,
    signedRightShift, leftShift, RangeError_.
  destruct (includes BINARY_OPERATOR_GROUPS.Logical op);
    [|destruct (includes BINARY_OPERATOR_GROUPS.Equality op);
      [|destruct (includes BINARY_OPERATOR_GROUPS.Comparison op);
        [|destruct (includes BINARY_OPERATOR_GROUPS.Arithmetic op);
          [|destruct (includes BINARY_OPERATOR_GROUPS.Bitwise op)]]]];
    destruct l, r; case_split; intros H; inversion H; reflexivity.
Qed.

Lemma Encloses_child (node m e : Expression) :
  Child node m -> Encloses m e -> Encloses node e.
Proof. intros; eapply EnclosesChild; eauto. Qed.

(** An error that a recursive call on the child [m] threw with its
    expression is the answer for the parent as well. *)
Ltac from_child IH H child :=
  let e' := fresh "e'" in
  let Henc := fresh "Henc" in
  let Har := fresh "Har" in
  apply (IH _ child) in H;
  destruct H as (e' & -> & Henc & Har);
  exists e';
  split; [reflexivity | split; [exact (Encloses_child _ _ _ child Henc) | exact Har]].

Lemma evalConstantExpr_error_origin host table (node : Expression) :
  forall cls msg oe,
    evalConstantExpr host table node = Throw (EvalError cls msg oe) ->
    exists e, oe = Some e /\ Encloses node e /\ ArisesAt host table e cls msg.
Proof.
  induction node as [node IH] using Child_induction.
  intros cls msg oe Hev.
  rewrite evalConstantExpr_unfold in Hev.
  destruct (isConstant node) eqn:Hc; simpl in Hev.
  2:{ inversion Hev; subst. exists node.
      split; [reflexivity | split; [constructor | now constructor]]. }
  destruct node as [k v hv u | op s | op l r | b cs | c t f | d | k args | ty].
  - (* Literal *)
    unfold evalLiteral in Hev.
    destruct (evalLiteralImpl host table k _ u) as [|ex] eqn:Himpl;
      simpl in Hev; [discriminate|].
    pose proof (evalLiteralImpl_throw_unset _ _ _ _ _ _ Himpl) as Hun.
    destruct ex as [|cls' msg' oe']; simpl in *; [discriminate|].
    subst oe'. inversion Hev; subst.
    eexists. split; [reflexivity | split; [constructor | now constructor]].
  - (* UnaryOperation *)
    unfold evalUnary in Hev.
    destruct (evalConstantExpr host table s) as [v|ex] eqn:Hs; simpl in Hev.
    + destruct (evalUnaryImpl op v) as [|ex] eqn:Himpl;
        simpl in Hev; [discriminate|].
      pose proof (evalUnaryImpl_throw_unset _ _ _ Himpl) as Hun.
      destruct ex as [|cls' msg' oe']; simpl in *; [discriminate|].
      subst oe'. inversion Hev; subst.
      eexists. split; [reflexivity | split; [constructor|]].
      eapply ArisesUnary; eauto.
    + destruct ex as [|cls' msg' [e0|]]; simpl in Hev; try discriminate.
      * inversion Hev; subst. from_child IH Hs (ChildUnary op s).
      * apply (IH _ (ChildUnary op s)) in Hs.
        destruct Hs as (e' & He' & _). discriminate.
  - (* BinaryOperation *)
    unfold evalBinary in Hev.
    destruct (evalConstantExpr host table l) as [vl|ex] eqn:Hl; simpl in Hev.
    + destruct (evalConstantExpr host table r) as [vr|ex] eqn:Hr; simpl in Hev.
      * destruct (evalBinaryImpl host op vl vr) as [|ex] eqn:Himpl;
          simpl in Hev; [discriminate|].
        pose proof (evalBinaryImpl_throw_unset _ _ _ _ _ Himpl) as Hun.
        destruct ex as [|cls' msg' oe']; simpl in *; [discriminate|].
        subst oe'. inversion Hev; subst.
        eexists. split; [reflexivity | split; [constructor|]].
        eapply ArisesBinary; eauto.
      * destruct ex as [|cls' msg' [e0|]]; simpl in Hev; try discriminate.
        -- inversion Hev; subst. from_child IH Hr (ChildRight op l r).
        -- apply (IH _ (ChildRight op l r)) in Hr.
           destruct Hr as (e' & He' & _). discriminate.
    + destruct ex as [|cls' msg' [e0|]]; simpl in Hev; try discriminate.
      * inversion Hev; subst. from_child IH Hl (ChildLeft op l r).
      * apply (IH _ (ChildLeft op l r)) in Hl.
        destruct Hl as (e' & He' & _). discriminate.
  - (* TupleExpression *)
    destruct cs as [|[c|] rest]; simpl in Hc;
      try (rewrite andb_false_r in Hc; discriminate).
    from_child IH Hev (ChildTuple b c rest).
  - (* Conditional *)
    destruct (evalConstantExpr host table c) as [v|ex] eqn:Hcond; simpl in Hev.
    + destruct (truthy v).
      * from_child IH Hev (ChildTrue c t f).
      * from_child IH Hev (ChildFalse c t f).
    + inversion Hev; subst. from_child IH Hcond (ChildCondition c t f).
  - (* Identifier *)
    destruct d as [[k [v|] | ty]|]; simpl in Hc; try discriminate.
    from_child IH Hev (ChildInitializer k v).
  - (* FunctionCall *)
    destruct k, args as [|a rest]; simpl in Hc; try discriminate.
    from_child IH Hev (ChildArgument FunctionCallKind.TypeConversion a rest).
  - (* any other node *)
    discriminate.
Qed.

Lemma evalConstantExpr_returns_constant host table (node : Expression) (v : Value) :
  evalConstantExpr host table node = Return v -> isConstant node = true.
Proof.
  rewrite evalConstantExpr_unfold.
  destruct (isConstant node); [reflexivity | discriminate].
Qed.

(** The frame at which an error arises throws it with its own node. *)
Lemma ArisesAt_throws host table (e : Expression) cls msg :
  ArisesAt host table e cls msg ->
  evalConstantExpr host table e = Throw (EvalError cls msg (Some e)).
Proof.
  intros H. rewrite evalConstantExpr_unfold.
  destruct H as [e Hnc | k v hv u cls msg Himpl
                | op s v cls msg Hs Himpl
                | op l r vl vr cls msg Hl Hr Himpl].
  - now rewrite Hnc.
  - simpl. unfold evalLiteral. now rewrite Himpl.
  - simpl. rewrite (evalConstantExpr_returns_constant _ _ _ _ Hs). simpl.
    unfold evalUnary. rewrite Hs. simpl. now rewrite Himpl.
  - simpl. rewrite (evalConstantExpr_returns_constant _ _ _ _ Hl),
      (evalConstantExpr_returns_constant _ _ _ _ Hr). simpl.
    unfold evalBinary. rewrite Hl, Hr. simpl. now rewrite Himpl.
Qed.

(** C8. The catch blocks of [evalUnary] and [evalBinary] fill in their
    node only when the error has no expression and leave an attached one
    alone; the catch block of [evalLiteral] only ever sees errors without
    an expression.  Hence an [EvalError] that leaves [evalConstantExpr
    node] carries an expression [e], which lies in [node] along the
    recursive calls and is the node whose own frame raised the error (all
    recursive calls of that frame had returned): the smallest enclosing
    expression. *)
Theorem evalConstantExpr_error_expression host table :
  (forall node cls msg e,
      @catchAttachIfUnset Value node (Throw (EvalError cls msg (Some e)))
        = Throw (EvalError cls msg (Some e)))
  /\ (forall node cls msg,
         @catchAttachIfUnset Value node (Throw (EvalError cls msg None))
           = Throw (EvalError cls msg (Some node)))
  /\ (forall kind value unit_ ex,
         evalLiteralImpl host table kind value unit_ = Throw ex ->
         exprOf ex = None)
  /\ (forall node cls msg oe,
         evalConstantExpr host table node = Throw (EvalError cls msg oe) ->
         exists e,
           oe = Some e
           /\ Encloses node e
           /\ ArisesAt host table e cls msg
           /\ evalConstantExpr host table e = Throw (EvalError cls msg (Some e))).
Proof.
  split; [reflexivity|]. split; [reflexivity|].
  split; [apply evalLiteralImpl_throw_unset|].
  intros node cls msg oe Hev.
  destruct (evalConstantExpr_error_origin host table node cls msg oe Hev)
    as (e & He & Henc & Har).
  exists e. repeat split; auto using ArisesAt_throws.
Qed.

Lemma evalConstantExpr_error_expression_witness :
  let one := Literal LiteralKind.Number "1" "" None in
  let inner := UnaryOperation "!" one in
  let node := UnaryOperation "-" (BinaryOperation "+" one inner) in
  let msg := Msg "Expected {} to be boolean" [ArgValue (VBigInt 1)] in
  evalConstantExpr exampleHost specMultipliers node
    = Throw (EvalError EvalErrorBase msg (Some inner))
  /\ exists e,
       Some inner = Some e
       /\ Encloses node e
       /\ ArisesAt exampleHost specMultipliers e EvalErrorBase msg
       /\ evalConstantExpr exampleHost specMultipliers e
          = Throw (EvalError EvalErrorBase msg (Some e)).
Proof.
  split; [reflexivity|].
  apply (proj2 (proj2 (proj2
           (evalConstantExpr_error_expression exampleHost specMultipliers)))).
  reflexivity.
Defined.

(* ================================================================== *)
(** ** Scenarios of section 8 of the specification *)
(* ================================================================== *)

Example literal_123 :
  evalConstantExpr exampleHost specMultipliers
    (Literal LiteralKind.Number "123" "" None) = Return (VBigInt 123).
Proof. reflexivity. Qed.

Example literal_with_separators_and_unit :
  evalConstantExpr exampleHost specMultipliers
    (Literal LiteralKind.Number "1_000.5" "" (Some "gwei"))
  = Return (VBigInt 1000500000000).
Proof. reflexivity. Qed.

Example literal_hexadecimal :
  evalConstantExpr exampleHost specMultipliers
    (Literal LiteralKind.Number "0xff" "ff" None) = Return (VBigInt 255).
Proof. reflexivity. Qed.

Example literal_fraction_stays_decimal :
  evalConstantExpr exampleHost specMultipliers
    (Literal LiteralKind.Number "2.5e-3" "" None)
  = Return (VDecimal (Decimal.Finite false 25 (-4))).
Proof. reflexivity. Qed.

Example not_true : evalUnaryImpl "!" (VBoolean true) = Return (VBoolean false).
Proof. reflexivity. Qed.

Example not_one :
  evalUnaryImpl "!" (VBigInt 1)
  = Throw (EvalError EvalErrorBase
             (Msg "Expected {} to be boolean" [ArgValue (VBigInt 1)]) None).
Proof. reflexivity. Qed.

Example constant_identifier_through_cast :
  let init := BinaryOperation "*"
                (Literal LiteralKind.Number "0.5" "" None)
                (Literal LiteralKind.Number "4" "" None) in
  let x := Identifier (Some (VariableDeclaration true (Some init))) in
  evalConstantExpr exampleHost specMultipliers
    (FunctionCall FunctionCallKind.TypeConversion
       [TupleExpression false [Some x]])
  = Return (VBigInt 2).
Proof. reflexivity. Qed.

Example comparison_promotes :
  evalBinaryImpl exampleHost "<" (VBigInt 1)
    (VDecimal (Decimal.Finite false 15 (-1))) = Return (VBoolean true).
Proof. reflexivity. Qed.

Example modulo_takes_the_sign_of_the_dividend :
  evalBinaryImpl exampleHost "%" (VBigInt (-7)) (VBigInt 2)
  = Return (VBigInt (-1)).
Proof. reflexivity. Qed.

Example sum_is_rounded_to_the_precision :
  evalBinaryImpl exampleHost "+" (VBigInt (10 ^ 100 + 5)) (VBigInt 0)
  = Return (VBigInt (10 ^ 100 + 10)).
Proof. vm_compute. reflexivity. Qed.

(** Literals in base 16 and 2 with a fraction or a binary exponent. *)
Example literal_binary_exponent :
  evalLiteralImpl exampleHost specMultipliers LiteralKind.Number "0x1p4" None
  = Return (VBigInt 16).
Proof. reflexivity. Qed.

Example literal_hexadecimal_fraction :
  evalLiteralImpl exampleHost specMultipliers LiteralKind.Number "0x1.8" None
  = Return (VDecimal (Decimal.Finite false 15 (-1))).
Proof. reflexivity. Qed.

Example literal_binary_fraction_with_exponent :
  evalLiteralImpl exampleHost specMultipliers LiteralKind.Number "-0b.11p3" None
  = Return (VBigInt (-6)).
Proof. reflexivity. Qed.

(** A decimal literal past the largest exponent of the library is an
    infinity. *)
Example literal_overflow :
  evalLiteralImpl exampleHost specMultipliers LiteralKind.Number
    "1e9000000000000001" None
  = Return (VDecimal (Decimal.Infinity false)).
Proof. reflexivity. Qed.

(* ================================================================== *)
(** ** Further properties: the classifier and the dispatcher *)
(* ================================================================== *)

Lemma evalLiteralImpl_raises host table kind value unit_ (ex : Exception) :
  evalLiteralImpl host table kind value unit_ = Throw ex -> raisedByImpl ex.
Proof.
  unfold evalLiteralImpl, EvalError_. case_split;
    intros H; inversion H; simpl; auto.
Qed.

Lemma evalUnaryImpl_raises (op : string) (v : Value) (ex : Exception) :
  evalUnaryImpl op v = Throw ex -> raisedByImpl ex.
Proof.
  unfold evalUnaryImpl, EvalError_. case_split;
    intros H; inversion H; simpl; auto.
Qed.

Lemma evalBinaryImpl_raises host (op : string) (l r : Value) (ex : Exception) :
  evalBinaryImpl host op l r = Throw ex -> raisedByImpl ex.
Proof.
  unfold evalBinaryImpl, EvalError_, bind, promoteToDec,
    signedRightShift, leftShift, RangeError_.
  destruct (includes BINARY_OPERATOR_GROUPS.Logical op);
    [|destruct (includes BINARY_OPERATOR_GROUPS.Equality op);
      [|destruct (includes BINARY_OPERATOR_GROUPS.Comparison op);
        [|destruct (includes BINARY_OPERATOR_GROUPS.Arithmetic op);
          [|destruct (includes BINARY_OPERATOR_GROUPS.Bitwise op)]]]];
    destruct l, r; case_split; intros H; inversion H; simpl; auto.
Qed.

Lemma ArisesAt_shape host table (e : Expression) cls (template : string) args :
  ArisesAt host table e cls (Msg template args) ->
  String.eqb template "Unable to evaluate constant expression {}" = false
  /\ (cls = NonConstantExpressionErrorClass -> isConstant e = false).
Proof.
  intros H.
  inversion H as [e0 Hnc
                 | k v hv u cls0 msg0 Himpl
                 | op s v cls0 msg0 Hs Himpl
                 | op l r vl vr cls0 msg0 Hl Hr Himpl]; subst.
  - split; [reflexivity | auto].
  - apply evalLiteralImpl_raises in Himpl. simpl in Himpl.
    destruct Himpl as (-> & _ & Ht). split; [exact Ht | discriminate].
  - apply evalUnaryImpl_raises in Himpl. simpl in Himpl.
    destruct Himpl as (-> & _ & Ht). split; [exact Ht | discriminate].
  - apply evalBinaryImpl_raises in Himpl. simpl in Himpl.
    destruct Himpl as (-> & _ & Ht). split; [exact Ht | discriminate].
Qed.

Lemma isConstant_child (node m : Expression) :
  Child node m -> isConstant node = true -> isConstant m = true.
Proof.
  destruct 1; simpl; intros H;
    repeat match goal with
           | H : _ && _ = true |- _ => apply andb_true_iff in H; destruct H
           end; auto.
  - destruct rest; [assumption | discriminate].
  - destruct k; try discriminate. assumption.
Qed.

Lemma isConstant_encloses (node e : Expression) :
  Encloses node e -> isConstant node = true -> isConstant e = true.
Proof.
  induction 1; eauto using isConstant_child.
Qed.

(** X1. [evalConstantExpr] throws a [NonConstantExpressionError] exactly on
    the expressions that [isConstant] rejects: inside a constant
    expression every recursive call is on a constant expression again, and
    no operator or literal evaluator throws that class. *)
Theorem NonConstantExpressionError_iff host table (node : Expression) :
  (exists msg oe,
      evalConstantExpr host table node
        = Throw (EvalError NonConstantExpressionErrorClass msg oe))
  <-> isConstant node = false.
Proof.
  split.
  - intros (msg & oe & Hev).
    destruct (evalConstantExpr_error_origin host table node _ _ _ Hev)
      as (e & _ & Henc & Har).
    destruct msg as [template args].
    destruct (ArisesAt_shape _ _ _ _ _ _ Har) as [_ Hnc].
    specialize (Hnc eq_refl).
    destruct (isConstant node) eqn:Hc; [|reflexivity].
    rewrite (isConstant_encloses node e Henc Hc) in Hnc. discriminate.
  - intros Hnc. rewrite evalConstantExpr_unfold, Hnc. simpl.
    unfold NonConstantExpressionError. eauto.
Qed.

(** X2. The last statement of [evalConstantExpr], the [EvalError] "Unable to
    evaluate constant expression", is never reached: no [EvalError] that
    leaves the evaluator has that message. *)
Theorem evalConstantExpr_never_unable host table (node : Expression)
    cls (template : string) args oe :
  evalConstantExpr host table node
    = Throw (EvalError cls (Msg template args) oe) ->
  String.eqb template "Unable to evaluate constant expression {}" = false.
Proof.
  intros Hev.
  destruct (evalConstantExpr_error_origin host table node _ _ _ Hev)
    as (e & _ & _ & Har).
  exact (proj1 (ArisesAt_shape _ _ _ _ _ _ Har)).
Qed.

Lemma evalConstantExpr_never_unable_witness :
  evalConstantExpr exampleHost specMultipliers
    (Conditional (Identifier (Some (OtherDeclaration "FunctionDefinition")))
       (Literal LiteralKind.Number "1" "" None)
       (Literal LiteralKind.Number "2" "" None))
  = Throw (NonConstantExpressionError
             (Some (Conditional
                      (Identifier (Some (OtherDeclaration "FunctionDefinition")))
                      (Literal LiteralKind.Number "1" "" None)
                      (Literal LiteralKind.Number "2" "" None))))
  /\ String.eqb "Found non-constant expression {} during constant evaluation"
       "Unable to evaluate constant expression {}" = false.
Proof.
  split; [reflexivity|].
  eapply (evalConstantExpr_never_unable exampleHost specMultipliers
            (Conditional
               (Identifier (Some (OtherDeclaration "FunctionDefinition")))
               (Literal LiteralKind.Number "1" "" None)
               (Literal LiteralKind.Number "2" "" None))).
  reflexivity.
Defined.

(** X3. A parenthesised expression, a type conversion and an identifier of a
    constant declaration evaluate exactly as the constant expression they
    wrap: the same value (a conversion truncates nothing) or the same
    exception. *)
Theorem evalConstantExpr_wrappers host table (e : Expression) :
  isConstant e = true ->
  evalConstantExpr host table (TupleExpression false [Some e])
    = evalConstantExpr host table e
  /\ (forall rest,
         evalConstantExpr host table
           (FunctionCall FunctionCallKind.TypeConversion (e :: rest))
         = evalConstantExpr host table e)
  /\ evalConstantExpr host table
       (Identifier (Some (VariableDeclaration true (Some e))))
     = evalConstantExpr host table e.
Proof.
  intros Hc. repeat split; intros;
    match goal with
    | |- evalConstantExpr _ _ ?n = _ =>
        rewrite (evalConstantExpr_unfold host table n)
    end; simpl; rewrite Hc; reflexivity.
Qed.

Lemma evalConstantExpr_wrappers_witness :
  let e := BinaryOperation "*"
             (Literal LiteralKind.Number "300" "" None)
             (Literal LiteralKind.Number "2" "" None) in
  isConstant e = true
  /\ evalConstantExpr exampleHost specMultipliers e = Return (VBigInt 600)
  /\ evalConstantExpr exampleHost specMultipliers
       (FunctionCall FunctionCallKind.TypeConversion [e])
     = evalConstantExpr exampleHost specMultipliers e.
Proof.
  split; [reflexivity|]. split; [reflexivity|].
  apply (evalConstantExpr_wrappers exampleHost specMultipliers
           (BinaryOperation "*"
              (Literal LiteralKind.Number "300" "" None)
              (Literal LiteralKind.Number "2" "" None)) eq_refl).
Defined.

Lemma evalConstantExpr_throw_settled host table (node m : Expression)
    (ex : Exception) :
  evalConstantExpr host table m = Throw ex ->
  @catchAttachIfUnset Value node (Throw ex) = Throw ex.
Proof.
  intros Hev. destruct ex as [|cls msg oe]; [reflexivity|].
  destruct (evalConstantExpr_error_origin host table m _ _ _ Hev)
    as (e & -> & _). reflexivity.
Qed.

(** X4. An exception of an operand leaves a unary or binary operation as it
    is, whatever the operator: the left operand is evaluated first, and
    the right operand is evaluated even when the left one alone would
    decide a logical operator (no short circuit). *)
Theorem evalConstantExpr_operand_exception host table (op : string)
    (l r : Expression) (ex : Exception) :
  isConstant l = true ->
  isConstant r = true ->
  (evalConstantExpr host table l = Throw ex ->
   evalConstantExpr host table (UnaryOperation op l) = Throw ex
   /\ evalConstantExpr host table (BinaryOperation op l r) = Throw ex)
  /\ (forall vl,
         evalConstantExpr host table l = Return vl ->
         evalConstantExpr host table r = Throw ex ->
         evalConstantExpr host table (BinaryOperation op l r) = Throw ex).
Proof.
  intros Hl Hr. split.
  - intros Hev. split.
    + rewrite (evalConstantExpr_unfold host table (UnaryOperation op l)).
      simpl. rewrite Hl. simpl. unfold evalUnary. rewrite Hev. simpl.
      eapply evalConstantExpr_throw_settled; eauto.
    + rewrite (evalConstantExpr_unfold host table (BinaryOperation op l r)).
      simpl. rewrite Hl, Hr. simpl. unfold evalBinary. rewrite Hev. simpl.
      eapply evalConstantExpr_throw_settled; eauto.
  - intros vl Hvl Hev.
    rewrite (evalConstantExpr_unfold host table (BinaryOperation op l r)).
    simpl. rewrite Hl, Hr. simpl. unfold evalBinary. rewrite Hvl, Hev. simpl.
    eapply evalConstantExpr_throw_settled; eauto.
Qed.

Lemma evalConstantExpr_operand_exception_witness :
  let l := Literal LiteralKind.Bool "false" "" None in
  let r := UnaryOperation "!" (Literal LiteralKind.Number "1" "" None) in
  let ex := EvalError EvalErrorBase
              (Msg "Expected {} to be boolean" [ArgValue (VBigInt 1)])
              (Some r) in
  isConstant l = true /\ isConstant r = true
  /\ evalConstantExpr exampleHost specMultipliers l = Return (VBoolean false)
  /\ evalConstantExpr exampleHost specMultipliers r = Throw ex
  /\ evalConstantExpr exampleHost specMultipliers (BinaryOperation "&&" l r)
     = Throw ex.
Proof.
  repeat (split; [reflexivity|]).
  eapply (proj2 (evalConstantExpr_operand_exception exampleHost specMultipliers
                   "&&" (Literal LiteralKind.Bool "false" "" None)
                   (UnaryOperation "!" (Literal LiteralKind.Number "1" "" None))
                   _ eq_refl eq_refl));
    reflexivity.
Defined.

(* ================================================================== *)
(** ** Further properties: the values that are returned *)
(* ================================================================== *)

Lemma demoteFromDec_demoted (d : Decimal.t) : demoted (demoteFromDec d) = true.
Proof.
  unfold demoteFromDec. destruct (Decimal.isInt d) eqn:Hi; simpl;
    [reflexivity | now rewrite Hi].
Qed.

Lemma isInt_negated (d : Decimal.t) :
  Decimal.isInt (Decimal.negated d) = Decimal.isInt d.
Proof. destruct d; reflexivity. Qed.

Lemma evalLiteralImpl_demoted host table kind value unit_ (v : Value) :
  evalLiteralImpl host table kind value unit_ = Return v -> demoted v = true.
Proof.
  unfold evalLiteralImpl.
  destruct kind; try (intros H; inversion H; reflexivity).
  destruct (Decimal.parse (scaleByPowerOfTwo host) (removeAll "_" value)) as [dec|]; [|discriminate].
  assert (Hval : demoted (if Decimal.isInt dec
                          then VBigInt (Decimal.toBigInt dec)
                          else VDecimal dec) = true).
  { destruct (Decimal.isInt dec) eqn:Hi; simpl; [reflexivity | now rewrite Hi]. }
  destruct unit_ as [u|]; [|intros H; inversion H; subst; exact Hval].
  destruct (Decimal.isEmpty u); [intros H; inversion H; subst; exact Hval|].
  destruct (table u) as [m|]; [|discriminate].
  destruct (negb (Decimal.isInt dec)).
  - intros H; inversion H. apply demoteFromDec_demoted.
  - destruct (Decimal.isInt m); intros H; inversion H. reflexivity.
Qed.

Lemma evalUnaryImpl_demoted (op : string) (v w : Value) :
  demoted v = true -> evalUnaryImpl op v = Return w -> demoted w = true.
Proof.
  intros Hv. unfold evalUnaryImpl.
  destruct (String.eqb op "!"); [destruct v; intros H; inversion H; reflexivity|].
  destruct (String.eqb op "~"); [destruct v; intros H; inversion H; reflexivity|].
  destruct (String.eqb op "+");
    [destruct v; intros H; inversion H; subst; exact Hv|].
  destruct (String.eqb op "-"); [|discriminate].
  destruct v; intros H; inversion H; simpl in *;
    [now rewrite isInt_negated | reflexivity].
Qed.

Lemma evalBinaryImpl_demoted host (op : string) (l r w : Value) :
  evalBinaryImpl host op l r = Return w -> demoted w = true.
Proof.
  unfold evalBinaryImpl, bind, promoteToDec, signedRightShift, leftShift.
  destruct (includes BINARY_OPERATOR_GROUPS.Logical op);
    [destruct l, r; case_split; intros H; inversion H; reflexivity|].
  destruct (includes BINARY_OPERATOR_GROUPS.Equality op);
    [destruct l, r; case_split; intros H; inversion H; reflexivity|].
  destruct (includes BINARY_OPERATOR_GROUPS.Comparison op);
    [destruct l, r; case_split; intros H; inversion H; reflexivity|].
  destruct (includes BINARY_OPERATOR_GROUPS.Arithmetic op);
    [destruct l, r; case_split; intros H; inversion H;
     apply demoteFromDec_demoted|].
  destruct (includes BINARY_OPERATOR_GROUPS.Bitwise op);
    [destruct l, r; case_split; intros H; inversion H; reflexivity|].
  discriminate.
Qed.

(** X5. Every value that [evalConstantExpr] returns is in demoted form: a
    [Decimal] is returned only when it is no integer (it has a fractional
    part, or is NaN or an infinity); an integral result is always a
    bigint. *)
Theorem evalConstantExpr_returns_demoted host table (node : Expression)
    (v : Value) :
  evalConstantExpr host table node = Return v -> demoted v = true.
Proof.
  revert v. induction node as [node IH] using Child_induction.
  intros v Hev. rewrite evalConstantExpr_unfold in Hev.
  destruct (isConstant node) eqn:Hc; simpl in Hev; [|discriminate].
  destruct node as [k s hv u | op s | op l r | b cs | c t f | d | k args | ty].
  - unfold evalLiteral in Hev.
    destruct (evalLiteralImpl host table k _ u) as [w|ex] eqn:Himpl; simpl in Hev.
    + inversion Hev; subst. eapply evalLiteralImpl_demoted; eauto.
    + destruct ex; discriminate.
  - unfold evalUnary in Hev.
    destruct (evalConstantExpr host table s) as [w|ex] eqn:Hs; simpl in Hev.
    + destruct (evalUnaryImpl op w) as [w'|ex] eqn:Himpl; simpl in Hev.
      * inversion Hev; subst.
        eapply evalUnaryImpl_demoted; [|eauto].
        eapply (IH _ (ChildUnary op s)); eauto.
      * destruct ex as [|? ? [|]]; discriminate.
    + destruct ex as [|? ? [|]]; discriminate.
  - unfold evalBinary in Hev.
    destruct (evalConstantExpr host table l) as [vl|ex]; simpl in Hev.
    + destruct (evalConstantExpr host table r) as [vr|ex]; simpl in Hev.
      * destruct (evalBinaryImpl host op vl vr) as [w|ex] eqn:Himpl;
          simpl in Hev.
        -- inversion Hev; subst. eapply evalBinaryImpl_demoted; eauto.
        -- destruct ex as [|? ? [|]]; discriminate.
      * destruct ex as [|? ? [|]]; discriminate.
    + destruct ex as [|? ? [|]]; discriminate.
  - destruct cs as [|[c|] rest]; try discriminate.
    eapply (IH _ (ChildTuple b c rest)); eauto.
  - destruct (evalConstantExpr host table c) as [vc|ex]; simpl in Hev;
      [|discriminate].
    destruct (truthy vc).
    + eapply (IH _ (ChildTrue c t f)); eauto.
    + eapply (IH _ (ChildFalse c t f)); eauto.
  - destruct d as [[k [e|] | ty]|]; try discriminate.
    eapply (IH _ (ChildInitializer k e)); eauto.
  - destruct args as [|a rest]; try discriminate.
    eapply (IH _ (ChildArgument k a rest)); eauto.
  - discriminate.
Qed.

Lemma evalConstantExpr_returns_demoted_witness :
  let node := BinaryOperation "/"
                (Literal LiteralKind.Number "7.5" "" None)
                (Literal LiteralKind.Number "2.5" "" None) in
  evalConstantExpr exampleHost specMultipliers node = Return (VBigInt 3)
  /\ demoted (VBigInt 3) = true.
Proof.
  split; [reflexivity|].
  apply (evalConstantExpr_returns_demoted exampleHost specMultipliers
           (BinaryOperation "/"
              (Literal LiteralKind.Number "7.5" "" None)
              (Literal LiteralKind.Number "2.5" "" None))).
  reflexivity.
Defined.

(* ================================================================== *)
(** ** Further properties: unary operators *)
(* ================================================================== *)

(** X6. Negation, logical negation and bitwise complement are involutions:
    when one of "-", "!" and "~" returns on a value, applying it once more
    returns the value started from. *)
Theorem evalUnaryImpl_involution (op : string) (v w : Value) :
  op = "-" \/ op = "!" \/ op = "~" ->
  evalUnaryImpl op v = Return w ->
  evalUnaryImpl op w = Return v.
Proof.
  intros [-> | [-> | ->]]; unfold evalUnaryImpl; simpl;
    destruct v as [d|b|s|n]; intros H; inversion H; subst.
  - destruct d as [|s|s c e]; simpl; now rewrite ?negb_involutive.
  - now rewrite Z.opp_involutive.
  - now rewrite negb_involutive.
  - now rewrite Z.lnot_involutive.
Qed.

Lemma evalUnaryImpl_involution_witness :
  evalUnaryImpl "~" (VBigInt 5) = Return (VBigInt (-6))
  /\ evalUnaryImpl "~" (VBigInt (-6)) = Return (VBigInt 5).
Proof.
  split; [reflexivity|].
  apply (evalUnaryImpl_involution "~" (VBigInt 5) (VBigInt (-6)));
    [tauto | reflexivity].
Defined.

(* ================================================================== *)
(** ** Further properties: binary operators *)
(* ================================================================== *)

Lemma includes_In (l : list string) (s : string) :
  includes l s = true <-> In s l.
Proof.
  unfold includes. rewrite existsb_exists. split.
  - intros (x & Hin & Heq). apply String.eqb_eq in Heq. now subst.
  - intros Hin. exists s. split; [assumption | apply String.eqb_refl].
Qed.

Ltac split_operator H :=
  simpl in H;
  repeat (destruct H as [<- | H]); try contradiction.

(** X7. When [evalBinaryImpl] returns, the operator belongs to one of the five
    groups, and the group fixes the kinds of the operands and of the
    result: Booleans for the logical operators; no String and a Boolean
    result for equality; numeric operands and a Boolean result for
    comparison; numeric operands and a numeric result for arithmetic;
    bigints throughout for the bitwise operators. *)
Theorem evalBinaryImpl_kinds host (op : string) (l r w : Value) :
  evalBinaryImpl host op l r = Return w ->
  (In op BINARY_OPERATOR_GROUPS.Logical
   /\ isBoolean l = true /\ isBoolean r = true /\ isBoolean w = true)
  \/ (In op BINARY_OPERATOR_GROUPS.Equality
      /\ (forall s, l <> VString s /\ r <> VString s) /\ isBoolean w = true)
  \/ (In op BINARY_OPERATOR_GROUPS.Comparison
      /\ isNumeric l = true /\ isNumeric r = true /\ isBoolean w = true)
  \/ (In op BINARY_OPERATOR_GROUPS.Arithmetic
      /\ isNumeric l = true /\ isNumeric r = true /\ isNumeric w = true)
  \/ (In op BINARY_OPERATOR_GROUPS.Bitwise
      /\ isBigInt l = true /\ isBigInt r = true /\ isBigInt w = true).
Proof.
  unfold evalBinaryImpl, bind, promoteToDec, signedRightShift, leftShift.
  destruct (includes BINARY_OPERATOR_GROUPS.Logical op) eqn:HL.
  { apply includes_In in HL. intros H. left. split; [exact HL|].
    revert H. destruct l, r; case_split; intros H; inversion H; auto. }
  destruct (includes BINARY_OPERATOR_GROUPS.Equality op) eqn:HE.
  { apply includes_In in HE. intros H. right; left. split; [exact HE|].
    revert H. destruct l, r; case_split; intros H; inversion H;
      (split; [intros s0; split; discriminate | reflexivity]). }
  destruct (includes BINARY_OPERATOR_GROUPS.Comparison op) eqn:HC.
  { apply includes_In in HC. intros H. right; right; left.
    split; [exact HC|].
    revert H. destruct l, r; case_split; intros H; inversion H; auto. }
  destruct (includes BINARY_OPERATOR_GROUPS.Arithmetic op) eqn:HA.
  { apply includes_In in HA. intros H. right; right; right; left.
    split; [exact HA|].
    revert H. destruct l, r; case_split; intros H; inversion H;
      (repeat split; try reflexivity);
      unfold demoteFromDec; case_split; reflexivity. }
  destruct (includes BINARY_OPERATOR_GROUPS.Bitwise op) eqn:HB;
    [|discriminate].
  apply includes_In in HB. intros H. right; right; right; right.
  split; [exact HB|].
  revert H. destruct l, r; case_split; intros H; inversion H; auto.
Qed.

Lemma evalBinaryImpl_kinds_witness :
  evalBinaryImpl exampleHost "|" (VBigInt 12) (VBigInt 3) = Return (VBigInt 15)
  /\ In "|" BINARY_OPERATOR_GROUPS.Bitwise.
Proof.
  split; [reflexivity|].
  destruct (evalBinaryImpl_kinds exampleHost "|" (VBigInt 12) (VBigInt 3)
              (VBigInt 15) eq_refl)
    as [(H & _) | [(H & _) | [(H & _) | [(H & _) | (H & _)]]]];
    [exfalso; simpl in H; intuition discriminate ..| exact H].
Defined.

(** X8. What the operator evaluators throw besides [EvalError]s.
    [evalUnaryImpl] throws [EvalError]s only (the complement of a bigint,
    which the engine computes and which returns, is left apart).  An
    exception of [evalBinaryImpl] that is no [EvalError] has one of two
    origins: a comparison or arithmetic operator, or a bitwise operator
    on two bigints, where it is the [RangeError] of the engine; from a
    shift that is when the result is longer than the engine allows.  The
    comparison and arithmetic operators never throw an [EvalError]: they
    throw a plain [Error] whenever an operand is a Boolean or a String;
    and a comparison of numeric operands always returns. *)
Theorem operator_exceptions host :
  (forall op v ex,
      (op = "~" -> isBigInt v = false) ->
      evalUnaryImpl op v = Throw ex -> instanceofEvalError ex = true)
  /\ (forall op l r ex,
         evalBinaryImpl host op l r = Throw ex ->
         instanceofEvalError ex = false ->
         includes BINARY_OPERATOR_GROUPS.Comparison op
         || includes BINARY_OPERATOR_GROUPS.Arithmetic op = true
         \/ (includes BINARY_OPERATOR_GROUPS.Bitwise op = true
             /\ ex = RangeError_
             /\ exists a b,
                 l = VBigInt a /\ r = VBigInt b
                 /\ (op = "<<" ->
                     0 < b /\ fitsBigInt host (a * 2 ^ b) = false)
                 /\ (op = ">>" ->
                     b < 0 /\ fitsBigInt host (a * 2 ^ (- b)) = false)))
  /\ (forall op l r ex,
         includes BINARY_OPERATOR_GROUPS.Comparison op
         || includes BINARY_OPERATOR_GROUPS.Arithmetic op = true ->
         evalBinaryImpl host op l r = Throw ex ->
         instanceofEvalError ex = false)
  /\ (forall op l r,
         includes BINARY_OPERATOR_GROUPS.Comparison op
         || includes BINARY_OPERATOR_GROUPS.Arithmetic op = true ->
         isNumeric l && isNumeric r = false ->
         exists msg, evalBinaryImpl host op l r = Throw (Error "Error" msg))
  /\ (forall op l r,
         includes BINARY_OPERATOR_GROUPS.Comparison op = true ->
         isNumeric l && isNumeric r = true ->
         exists b, evalBinaryImpl host op l r = Return (VBoolean b)).
Proof.
  assert (Hgroup : forall op l r ex,
             includes BINARY_OPERATOR_GROUPS.Comparison op
             || includes BINARY_OPERATOR_GROUPS.Arithmetic op = true ->
             evalBinaryImpl host op l r = Throw ex ->
             instanceofEvalError ex = false).
  { intros op l r ex Hop. apply orb_true_iff in Hop.
    destruct Hop as [H | H]; apply includes_In in H; split_operator H;
      unfold evalBinaryImpl; simpl; destruct l, r; simpl;
      intros Hex; inversion Hex; reflexivity. }
  split; [|split; [|split; [exact Hgroup|split]]].
  - intros op v ex _. unfold evalUnaryImpl, EvalError_.
    case_split; intros H; inversion H; reflexivity.
  - intros op l r ex Hex Hne.
    destruct (includes BINARY_OPERATOR_GROUPS.Comparison op) eqn:HC;
      [now left|].
    destruct (includes BINARY_OPERATOR_GROUPS.Arithmetic op) eqn:HA;
      [now left|].
    right. revert Hex. unfold evalBinaryImpl, EvalError_. rewrite HC, HA.
    destruct (includes BINARY_OPERATOR_GROUPS.Logical op);
      [destruct l, r; case_split; intros H; inversion H; subst;
       discriminate Hne|].
    destruct (includes BINARY_OPERATOR_GROUPS.Equality op);
      [destruct l, r; case_split; intros H; inversion H; subst;
       discriminate Hne|].
    destruct (includes BINARY_OPERATOR_GROUPS.Bitwise op);
      [|intros H; inversion H; subst; discriminate Hne].
    destruct l as [dl|bl|sl|a], r as [dr|br|sr|b];
      try (intros H; inversion H; subst; discriminate Hne).
    destruct (String.eqb_spec op "<<") as [->|_].
    { unfold leftShift.
      destruct (0 <? b) eqn:Hb; simpl; [|discriminate].
      apply Z.ltb_lt in Hb. rewrite Z.shiftl_mul_pow2 by lia.
      destruct (fitsBigInt host (a * 2 ^ b)) eqn:Hfit; simpl; [discriminate|].
      intros H; inversion H. split; [reflexivity|]. split; [reflexivity|].
      exists a, b. repeat split; auto; discriminate. }
    destruct (String.eqb_spec op ">>") as [->|_].
    { unfold signedRightShift, leftShift.
      destruct (0 <? - b) eqn:Hb; simpl; [|discriminate].
      apply Z.ltb_lt in Hb. rewrite Z.shiftl_mul_pow2 by lia.
      destruct (fitsBigInt host (a * 2 ^ (- b))) eqn:Hfit; simpl;
        [discriminate|].
      intros H; inversion H. split; [reflexivity|]. split; [reflexivity|].
      exists a, b. repeat split; auto; try discriminate; lia. }
    case_split; intros H; inversion H; subst; discriminate Hne.
  - intros op l r Hop Hnum. apply orb_true_iff in Hop.
    destruct Hop as [H | H]; apply includes_In in H; split_operator H;
      unfold evalBinaryImpl; simpl; destruct l, r; simpl;
      try discriminate Hnum; eauto.
  - intros op l r Hop Hnum. apply includes_In in Hop. split_operator Hop;
      unfold evalBinaryImpl; simpl; destruct l, r; simpl;
      try discriminate Hnum; eauto.
Qed.

Lemma operator_exceptions_witness :
  evalBinaryImpl exampleHost "<<" (VBigInt 1) (VBigInt (2 ^ 31))
    = Throw RangeError_
  /\ instanceofEvalError RangeError_ = false
  /\ fitsBigInt exampleHost (1 * 2 ^ 2 ^ 31) = false
  /\ includes BINARY_OPERATOR_GROUPS.Comparison ">="
     || includes BINARY_OPERATOR_GROUPS.Arithmetic ">=" = true
  /\ isNumeric (VBigInt 1) && isNumeric (VString "1") = false
  /\ (exists msg,
         evalBinaryImpl exampleHost ">=" (VBigInt 1) (VString "1")
         = Throw (Error "Error" msg))
  /\ evalUnaryImpl "-" (VBoolean true)
     = Throw (EvalError_ "Expected {} to be a bigint or a decimal"
                [ArgValue (VBoolean true)])
  /\ instanceofEvalError
       (EvalError_ "Expected {} to be a bigint or a decimal"
          [ArgValue (VBoolean true)]) = true.
Proof.
  assert (Hfit : fitsBigInt exampleHost (1 * 2 ^ 2 ^ 31) = false).
  { rewrite fitsBigInt_shifted by (discriminate || (intro; discriminate)).
    reflexivity. }
  assert (Hshift : evalBinaryImpl exampleHost "<<" (VBigInt 1)
                     (VBigInt (2 ^ 31)) = Throw RangeError_).
  { assert (Hls : leftShift exampleHost 1 (2 ^ 31) = Throw RangeError_)
      by (rewrite leftShift_up by reflexivity; now rewrite Hfit).
    exact Hls. }
  pose proof (operator_exceptions exampleHost) as (Hun & _ & _ & Hplain & _).
  split; [exact Hshift|]. split; [reflexivity|]. split; [exact Hfit|].
  split; [reflexivity|]. split; [reflexivity|].
  split; [apply (Hplain ">=" (VBigInt 1) (VString "1") eq_refl eq_refl)|].
  split; [reflexivity|].
  apply (Hun "-" (VBoolean true)); [discriminate | reflexivity].
Defined.

(* ================================================================== *)
(** ** Further properties: numbers through the decimal library *)
(* ================================================================== *)

(** The [Decimal] of a bigint: its sign, and a coefficient and non-negative
    exponent that give back its magnitude. *)
Lemma ofBigInt_shape (n : Z) :
  exists c e,
    Decimal.ofBigInt n = Decimal.Finite (n <? 0) c e
    /\ 0 <= e
    /\ Z.of_N c * 10 ^ e = Z.abs n
    /\ (c = 0%N <-> n = 0).
Proof.
  destruct (Z.eq_dec n 0) as [->|Hn].
  - exists 0%N, 0. repeat split; auto; lia.
  - unfold Decimal.ofBigInt.
    destruct (normal_spec (n <? 0) (Z.abs n) 0) as (c' & e' & Heq & Hc' & He & Hv);
      [lia|].
    exists (Z.to_N c'), e'. rewrite Z.sub_0_r in Hv.
    rewrite Z2N.id by lia. repeat split; auto; lia.
Qed.

Lemma signZ_abs (n : Z) : Decimal.signZ (n <? 0) * Z.abs n = n.
Proof.
  unfold Decimal.signZ.
  destruct (n <? 0) eqn:H; [apply Z.ltb_lt in H | apply Z.ltb_ge in H]; lia.
Qed.

Lemma align_spec (c1 e1 c2 e2 : Z) :
  0 <= e1 -> 0 <= e2 ->
  exists a b e,
    Decimal.align c1 e1 c2 e2 = (a, b, e)
    /\ 0 <= e
    /\ a * 10 ^ e = c1 * 10 ^ e1
    /\ b * 10 ^ e = c2 * 10 ^ e2.
Proof.
  intros H1 H2. unfold Decimal.align, Decimal.pow10.
  eexists; eexists; eexists. split; [reflexivity|].
  split; [lia|].
  split; rewrite <- Z.mul_assoc, <- Z.pow_add_r by lia; do 2 f_equal; lia.
Qed.

Lemma compare_scaled (n m p : Z) :
  0 < p -> (n * p ?= m * p) = (n ?= m).
Proof.
  intros Hp. destruct (Z.compare_spec n m) as [->|H|H].
  - apply Z.compare_refl.
  - apply Z.compare_lt_iff. nia.
  - apply Z.compare_gt_iff. nia.
Qed.

Lemma cmp_ofBigInt (a b : Z) :
  Decimal.cmp (Decimal.ofBigInt a) (Decimal.ofBigInt b) = Some (a ?= b).
Proof.
  destruct (ofBigInt_shape a) as (ca & ea & -> & Hea & Ha & _).
  destruct (ofBigInt_shape b) as (cb & eb & -> & Heb & Hb & _).
  unfold Decimal.cmp.
  destruct (align_spec (Z.of_N ca) ea (Z.of_N cb) eb Hea Heb)
    as (x & y & e & -> & He & Hx & Hy).
  f_equal.
  assert (Hp : 0 < 10 ^ e) by (apply Z.pow_pos_nonneg; lia).
  rewrite <- (compare_scaled _ _ (10 ^ e) Hp).
  rewrite <- (signZ_abs a) at 2. rewrite <- (signZ_abs b) at 2.
  rewrite <- Ha, <- Hb, <- Hx, <- Hy.
  now rewrite !Z.mul_assoc.
Qed.

Lemma evalBinaryImpl_comparison host (l r : Value) (a b : Decimal.t) :
  promoteToDec l = Return a ->
  promoteToDec r = Return b ->
  evalBinaryImpl host "<" l r = Return (VBoolean (Decimal.lessThan a b))
  /\ evalBinaryImpl host "<=" l r
     = Return (VBoolean (Decimal.lessThanOrEqualTo a b))
  /\ evalBinaryImpl host ">" l r = Return (VBoolean (Decimal.greaterThan a b))
  /\ evalBinaryImpl host ">=" l r
     = Return (VBoolean (Decimal.greaterThanOrEqualTo a b)).
Proof.
  intros Ha Hb. unfold evalBinaryImpl; simpl. rewrite Ha, Hb. simpl. auto.
Qed.

(** X9. On bigints the four comparison operators, which go through the
    promotion to [Decimal], give the order of the integers. *)
Theorem evalBinaryImpl_compares_bigints host (a b : Z) :
  evalBinaryImpl host "<" (VBigInt a) (VBigInt b) = Return (VBoolean (a <? b))
  /\ evalBinaryImpl host "<=" (VBigInt a) (VBigInt b)
     = Return (VBoolean (a <=? b))
  /\ evalBinaryImpl host ">" (VBigInt a) (VBigInt b)
     = Return (VBoolean (b <? a))
  /\ evalBinaryImpl host ">=" (VBigInt a) (VBigInt b)
     = Return (VBoolean (b <=? a)).
Proof.
  destruct (evalBinaryImpl_comparison host (VBigInt a) (VBigInt b) _ _
              eq_refl eq_refl) as (H1 & H2 & H3 & H4).
  rewrite H1, H2, H3, H4.
  unfold Decimal.lessThan, Decimal.lessThanOrEqualTo, Decimal.greaterThan,
    Decimal.greaterThanOrEqualTo.
  rewrite cmp_ofBigInt.
  unfold Z.ltb, Z.leb. rewrite (Z.compare_antisym a b).
  destruct (a ?= b); simpl; auto.
Qed.

Lemma cmp_Eq_sym (x y : Decimal.t) :
  Decimal.cmp x y = Some Eq <-> Decimal.cmp y x = Some Eq.
Proof.
  assert (Hhalf : forall x y,
             Decimal.cmp x y = Some Eq -> Decimal.cmp y x = Some Eq).
  { clear. intros [|sx|sx cx ex] [|sy|sy cy ey]; simpl; try discriminate.
    - destruct sx, sy; simpl; (discriminate || reflexivity).
    - destruct sx; discriminate.
    - destruct sy; discriminate.
    - unfold Decimal.align. rewrite (Z.min_comm ey ex).
      intros H. injection H as H. apply Z.compare_eq_iff in H.
      f_equal. apply Z.compare_eq_iff. lia. }
  split; apply Hhalf.
Qed.

Lemma equals_sym (x y : Decimal.t) : Decimal.equals x y = Decimal.equals y x.
Proof.
  unfold Decimal.equals.
  destruct (Decimal.cmp x y) as [[| |]|] eqn:Hxy;
    destruct (Decimal.cmp y x) as [[| |]|] eqn:Hyx; try reflexivity;
    try (apply cmp_Eq_sym in Hxy; congruence);
    try (apply cmp_Eq_sym in Hyx; congruence).
Qed.

Lemma equals_refl (d : Decimal.t) :
  Decimal.equals d d = negb (Decimal.isNaN d).
Proof.
  destruct d as [|s|s c e]; unfold Decimal.equals; simpl.
  - reflexivity.
  - now rewrite Bool.eqb_reflx.
  - now rewrite Z.compare_refl.
Qed.

(** X10. The equality operators: "!=" returns the negation of what "=="
    returns; "==" is symmetric; it holds between a value and itself, with
    the one exception of the [Decimal] NaN.  A String operand makes both
    operators throw. *)
Theorem evalBinaryImpl_equality host (l r : Value) :
  (forall b,
      evalBinaryImpl host "==" l r = Return (VBoolean b)
      <-> evalBinaryImpl host "!=" l r = Return (VBoolean (negb b)))
  /\ (forall w,
         evalBinaryImpl host "==" l r = Return w ->
         evalBinaryImpl host "==" r l = Return w)
  /\ evalBinaryImpl host "==" l l
     = match l with
       | VString _ =>
           Throw (EvalError_ "{} not allowed for strings {} and {}"
                    [ArgText "=="; ArgValue l; ArgValue l])
       | VDecimal d => Return (VBoolean (negb (Decimal.isNaN d)))
       | _ => Return (VBoolean true)
       end.
Proof.
  split; [|split].
  - intros b. unfold evalBinaryImpl; simpl.
    destruct l, r; simpl;
      (split; intros H;
       [inversion H; subst; reflexivity
       |try discriminate H;
        apply (f_equal (fun o => match o with
                                 | Return (VBoolean c) =>
                                     Return (VBoolean (negb c))
                                 | _ => o
                                 end)) in H;
        simpl in H; rewrite ?negb_involutive in H; exact H]).
  - intros w. unfold evalBinaryImpl; simpl.
    destruct l, r; simpl; intros H; inversion H; subst; try reflexivity.
    + now rewrite equals_sym.
    + now destruct b, b0.
    + now rewrite Z.eqb_sym.
  - unfold evalBinaryImpl; simpl. destruct l; simpl; try reflexivity.
    + now rewrite equals_refl.
    + now rewrite Bool.eqb_reflx.
    + now rewrite Z.eqb_refl.
Qed.

Lemma isFiniteValue_demote (d : Decimal.t) :
  isFiniteValue (demoteFromDec d) = Decimal.isFinite d.
Proof.
  unfold demoteFromDec. destruct (Decimal.isInt d) eqn:Hi; [|reflexivity].
  destruct d; simpl in *; congruence.
Qed.

Lemma digits_aux_le (fuel : nat) :
  forall c k, 0 <= c < 10 ^ k -> 1 <= k -> Decimal.digits_aux fuel c <= k.
Proof.
  induction fuel as [|fuel IH]; intros c k Hc Hk;
    cbn [Decimal.digits_aux]; [lia|].
  destruct (c <? 10) eqn:H10; [lia|]. apply Z.ltb_ge in H10.
  assert (Hk2 : 2 <= k).
  { destruct (Z.eq_dec k 1) as [->|]; [change (10 ^ 1) with 10 in Hc|]; lia. }
  assert (Hpow : 10 ^ k = 10 * 10 ^ (k - 1)).
  { replace k with (Z.succ (k - 1)) at 1 by lia. apply Z.pow_succ_r. lia. }
  assert (Hdiv : c / 10 < 10 ^ (k - 1))
    by (apply Z.div_lt_upper_bound; lia).
  assert (0 <= c / 10) by (apply Z.div_pos; lia).
  assert (Decimal.digits_aux fuel (c / 10) <= k - 1)
    by (apply IH; [split; assumption | lia]).
  lia.
Qed.

Lemma digits_aux_spec (fuel : nat) :
  forall c,
    1 <= c < 2 ^ (Z.of_nat fuel + 1) ->
    1 <= Decimal.digits_aux fuel c
    /\ 10 ^ (Decimal.digits_aux fuel c - 1) <= c < 10 ^ Decimal.digits_aux fuel c.
Proof.
  induction fuel as [|fuel IH]; intros c Hc; cbn [Decimal.digits_aux].
  - change (2 ^ (Z.of_nat 0 + 1)) with 2 in Hc.
    change (10 ^ (1 - 1)) with 1. change (10 ^ 1) with 10. lia.
  - destruct (c <? 10) eqn:H10;
      [apply Z.ltb_lt in H10 | apply Z.ltb_ge in H10].
    + change (10 ^ (1 - 1)) with 1. change (10 ^ 1) with 10. lia.
    + assert (Hpow : 2 ^ (Z.of_nat (S fuel) + 1) = 2 * 2 ^ (Z.of_nat fuel + 1)).
      { rewrite Nat2Z.inj_succ.
        replace (Z.succ (Z.of_nat fuel) + 1) with (Z.succ (Z.of_nat fuel + 1))
          by lia.
        apply Z.pow_succ_r. lia. }
      pose proof (Z.div_mod c 10) as Hdm.
      pose proof (Z.mod_pos_bound c 10) as Hmb.
      assert (Hq : 1 <= c / 10 < 2 ^ (Z.of_nat fuel + 1)) by lia.
      destruct (IH (c / 10) Hq) as (Hd & Hlo & Hhi).
      set (d := Decimal.digits_aux fuel (c / 10)) in *.
      replace (1 + d - 1) with (Z.succ (d - 1)) by lia.
      replace (1 + d) with (Z.succ d) by lia.
      rewrite !Z.pow_succ_r by lia. lia.
Qed.

Lemma digits_spec (c : Z) :
  1 <= c ->
  1 <= Decimal.digits c
  /\ 10 ^ (Decimal.digits c - 1) <= c < 10 ^ Decimal.digits c.
Proof.
  intros Hc. unfold Decimal.digits. apply digits_aux_spec.
  rewrite Z2Nat.id by (apply Z.log2_nonneg).
  pose proof (Z.log2_spec c). replace (Z.log2 c + 1) with (Z.succ (Z.log2 c)) by lia.
  lia.
Qed.

Lemma digits_le (c k : Z) :
  0 <= c < 10 ^ k -> 1 <= k -> Decimal.digits c <= k.
Proof. intros Hc Hk. unfold Decimal.digits. now apply digits_aux_le. Qed.

Lemma pow10_ge_1 (e : Z) : 0 <= e -> 1 <= 10 ^ e.
Proof. intros He. pose proof (Z.pow_pos_nonneg 10 e). lia. Qed.

Lemma pow10_lt_inv (i j : Z) : 0 <= j -> 10 ^ i < 10 ^ j -> i < j.
Proof.
  intros Hj H. destruct (Z.lt_ge_cases i j) as [|Hge]; [assumption|].
  assert (10 ^ j <= 10 ^ i) by (apply Z.pow_le_mono_r; lia). lia.
Qed.

(** Stripping the trailing zeros leaves the exponent of the leading digit
    where it was: within the limits the exponent test changes nothing. *)
Lemma inRange_normal (s : bool) (c e : Z) :
  0 < c -> Decimal.minE <= e -> Decimal.digits c + e <= Decimal.maxE + 1 ->
  Decimal.inRange (Decimal.normal s c e) = Decimal.normal s c e.
Proof.
  intros Hc Hlo Hhi.
  destruct (normal_spec s c e Hc) as (c' & e' & Heq & Hc' & He' & Hv).
  rewrite Heq. unfold Decimal.inRange.
  destruct (N.eqb (Z.to_N c') 0); [reflexivity|].
  rewrite Z2N.id by lia.
  assert (Hc1 : 1 <= c') by lia. assert (Hc2 : 1 <= c) by lia.
  destruct (digits_spec c' Hc1) as (Hd & Hdlo & _).
  destruct (digits_spec c Hc2) as (Hdc & _ & Hchi).
  assert (Hlead : Decimal.digits c' - 1 + (e' - e) < Decimal.digits c).
  { apply pow10_lt_inv; [lia|].
    rewrite Z.pow_add_r by lia.
    assert (0 < 10 ^ (e' - e)) by (apply Z.pow_pos_nonneg; lia).
    nia. }
  destruct (Decimal.maxE <? Decimal.digits c' - 1 + e') eqn:H1;
    [apply Z.ltb_lt in H1; lia|].
  destruct (Decimal.digits c' - 1 + e' <? Decimal.minE) eqn:H2;
    [apply Z.ltb_lt in H2; lia|].
  reflexivity.
Qed.

(** A result whose leading digit lies within the exponent limits is handed
    over as rounded: it is finite. *)
Lemma finalise_in_range (s : bool) (c e : Z) :
  0 < c -> Decimal.minE <= e -> Decimal.digits c + e <= Decimal.maxE ->
  Decimal.finalise s c e = Decimal.roundToPrecision s c e
  /\ Decimal.isFinite (Decimal.finalise s c e) = true.
Proof.
  intros Hc Hlo Hhi.
  assert (Hfin : forall c0 e0,
             Decimal.isFinite (Decimal.normal s c0 e0) = true).
  { intros c0 e0. destruct (normal_finite s c0 e0) as (c' & e' & ->).
    reflexivity. }
  unfold Decimal.finalise, Decimal.roundToPrecision, Decimal.precision,
    Decimal.pow10.
  assert (Hc1 : 1 <= c) by lia.
  destruct (digits_spec c Hc1) as (Hd & Hdlo & Hdhi).
  set (n := Decimal.digits c) in *.
  destruct (n <=? 100) eqn:Hn;
    [apply Z.leb_le in Hn | apply Z.leb_gt in Hn].
  - rewrite inRange_normal by lia. auto.
  - set (k := n - 100).
    assert (Hk : 0 < 10 ^ k) by (apply Z.pow_pos_nonneg; unfold k; lia).
    assert (H99 : 0 < 10 ^ 99) by reflexivity.
    assert (Hsplit1 : 10 ^ n = 10 ^ k * 10 ^ 100).
    { rewrite <- Z.pow_add_r by (unfold k; lia). f_equal. unfold k. lia. }
    assert (Hsplit2 : 10 ^ (n - 1) = 10 ^ k * 10 ^ 99).
    { rewrite <- Z.pow_add_r by (unfold k; lia). f_equal. unfold k. lia. }
    assert (Hqhi : c / 10 ^ k < 10 ^ 100)
      by (apply Z.div_lt_upper_bound; lia).
    assert (Hqlo : 10 ^ 99 <= c / 10 ^ k)
      by (apply Z.div_le_lower_bound; lia).
    set (q := c / 10 ^ k) in *.
    set (c0 := if 10 ^ k <=? 2 * (c mod 10 ^ k) then q + 1 else q).
    assert (Hc0 : 0 < c0 < 10 ^ 101).
    { assert (10 ^ 101 = 10 * 10 ^ 100) by reflexivity.
      unfold c0. destruct (10 ^ k <=? 2 * (c mod 10 ^ k)); lia. }
    assert (Hd0 : Decimal.digits c0 <= 101) by (apply digits_le; lia).
    rewrite inRange_normal by (unfold k; lia). auto.
Qed.

(** The exponent test leaves a number that is an integer of at most a
    hundred digits. *)
Lemma inRange_represents (d : Decimal.t) (z : Z) :
  Decimal.represents d z -> Z.abs z < 10 ^ 100 -> Decimal.inRange d = d.
Proof.
  destruct d as [|s|s c e]; try reflexivity.
  unfold Decimal.represents, Decimal.inRange, Decimal.pow10.
  intros Hrep Hz.
  destruct (N.eqb_spec c 0) as [|Hc]; [reflexivity|].
  assert (Hc1 : 1 <= Z.of_N c) by lia.
  destruct (digits_spec _ Hc1) as (Hd & Hdlo & Hdhi).
  set (C := Z.of_N c) in *. set (n := Decimal.digits C) in *.
  assert (Hp : 0 < 10 ^ Z.max e 0) by (apply Z.pow_pos_nonneg; lia).
  assert (Hp' : 0 < 10 ^ Z.max (- e) 0) by (apply Z.pow_pos_nonneg; lia).
  assert (Habs : C * 10 ^ Z.max e 0 = Z.abs z * 10 ^ Z.max (- e) 0).
  { apply (f_equal Z.abs) in Hrep. rewrite !Z.abs_mul in Hrep.
    rewrite (Z.abs_eq C), (Z.abs_eq (10 ^ Z.max e 0)),
      (Z.abs_eq (10 ^ Z.max (- e) 0)) in Hrep by lia.
    replace (Z.abs (Decimal.signZ s)) with 1 in Hrep by (now destruct s).
    lia. }
  assert (H100 : 0 < 10 ^ 100) by reflexivity.
  assert (Hlead : 0 <= n - 1 + e < 100).
  { destruct (Z.le_gt_cases 0 e) as [He|He].
    - rewrite (Z.max_l e 0), (Z.max_r (- e) 0) in Habs by lia.
      change (10 ^ 0) with 1 in Habs.
      split; [lia|]. apply pow10_lt_inv; [lia|].
      rewrite Z.pow_add_r by lia.
      rewrite (Z.max_l e 0) in Hp by lia. nia.
    - rewrite (Z.max_r e 0), (Z.max_l (- e) 0) in Habs by lia.
      rewrite (Z.max_l (- e) 0) in Hp' by lia.
      change (10 ^ 0) with 1 in Habs.
      assert (Hz1 : 1 <= Z.abs z) by nia.
      assert (H1 : - e < n) by (apply pow10_lt_inv; [lia|nia]).
      split; [lia|].
      assert (H2 : n - 1 < 100 + - e).
      { apply pow10_lt_inv; [lia|]. rewrite Z.pow_add_r by lia. nia. }
      lia. }
  unfold Decimal.maxE, Decimal.minE.
  destruct (9000000000000000 <? n - 1 + e) eqn:H1;
    [apply Z.ltb_lt in H1; lia|].
  destruct (n - 1 + e <? -9000000000000000) eqn:H2;
    [apply Z.ltb_lt in H2; lia|].
  reflexivity.
Qed.

Lemma promoteToDec_moderate (v : Value) :
  isModerate v = true ->
  exists s c e,
    promoteToDec v = Return (Decimal.Finite s c e)
    /\ N.eqb c 0 = isZeroValue v
    /\ Z.of_N c < 10 ^ 1000
    /\ -1000 <= e <= 1000.
Proof.
  destruct v as [d|b|s|n]; simpl; try discriminate.
  - destruct d as [|s|s c e]; simpl; try discriminate.
    intros H. apply andb_true_iff in H. destruct H as [H He2].
    apply andb_true_iff in H. destruct H as [Hc He1].
    apply Z.ltb_lt in Hc. apply Z.leb_le in He1, He2.
    exists s, c, e. auto.
  - intros H. apply Z.ltb_lt in H.
    destruct (Z.eq_dec n 0) as [->|Hn].
    + exists false, 0%N, 0. repeat split; try reflexivity; lia.
    + destruct (ofBigInt_shape n) as (c & e & -> & He & Hv & Hz).
      exists (n <? 0), c, e. split; [reflexivity|].
      assert (Hc : Z.of_N c <> 0) by (intros H0; apply Hn, Hz; lia).
      assert (Hp : 1 <= 10 ^ e) by (apply pow10_ge_1; exact He).
      split; [|split; [nia|]].
      * destruct (N.eqb_spec c 0) as [H0|_], (Z.eqb_spec n 0) as [H1|_];
          try reflexivity; [subst c; exfalso; apply Hc; reflexivity|tauto].
      * split; [lia|].
        assert (e < 1000); [|lia].
        apply pow10_lt_inv; [lia|]. nia.
Qed.

Lemma div_moderate (sa sb : bool) (ca cb : N) (ea eb : Z) :
  ca <> 0%N -> cb <> 0%N ->
  Z.of_N ca < 10 ^ 1000 -> Z.of_N cb < 10 ^ 1000 ->
  -1000 <= ea <= 1000 -> -1000 <= eb <= 1000 ->
  Decimal.isFinite
    (Decimal.div (Decimal.Finite sa ca ea) (Decimal.Finite sb cb eb)) = true.
Proof.
  intros Hca Hcb Hal Hbl Hea Heb. unfold Decimal.div.
  destruct (N.eqb_spec ca 0) as [|_]; [contradiction|].
  destruct (N.eqb_spec cb 0) as [|_]; [contradiction|].
  set (A := Z.of_N ca) in *. set (B := Z.of_N cb) in *.
  assert (HA1 : 1 <= A) by (unfold A; lia).
  assert (HB1 : 1 <= B) by (unfold B; lia).
  destruct (digits_spec A HA1) as (HdA & HAlo & _).
  destruct (digits_spec B HB1) as (HdB & _ & HBhi).
  assert (HdA' : Decimal.digits A <= 1000) by (apply digits_le; lia).
  assert (HdB' : Decimal.digits B <= 1000) by (apply digits_le; lia).
  unfold Decimal.precision, Decimal.pow10.
  set (dA := Decimal.digits A) in *. set (dB := Decimal.digits B) in *.
  set (k := Z.max 0 (100 + 1 + dB - dA)).
  assert (Hk : 0 <= k <= 1101) by (unfold k; lia).
  assert (Hpk : 0 < 10 ^ k) by (apply Z.pow_pos_nonneg; lia).
  assert (Hbig : B <= A * 10 ^ k).
  { assert (H1 : 10 ^ dB <= 10 ^ (dA - 1 + k))
      by (apply Z.pow_le_mono_r; unfold k; lia).
    rewrite (Z.pow_add_r 10 (dA - 1) k) in H1 by lia. nia. }
  assert (HQ : 1 <= A * 10 ^ k / B)
    by (apply Z.div_le_lower_bound; lia).
  assert (HQhi : A * 10 ^ k / B < 10 ^ (1000 + k)).
  { apply Z.div_lt_upper_bound; [lia|].
    rewrite Z.pow_add_r by lia.
    assert (0 < 10 ^ 1000) by reflexivity. nia. }
  assert (HdQ : Decimal.digits (A * 10 ^ k / B) <= 1000 + k)
    by (apply digits_le; lia).
  apply finalise_in_range; unfold Decimal.minE, Decimal.maxE; lia.
Qed.

(** X11. Division of numbers of moderate size (bigints of at most a
    thousand digits, finite [Decimal]s with a coefficient of at most a
    thousand digits and an exponent between -1000 and 1000) always
    returns, and the quotient is finite exactly when the divisor is not
    zero.  (Beyond the exponent limits of the library the quotient of two
    finite numbers can be an infinity: [division_overflow] below.) *)
Theorem evalBinaryImpl_division_finite host (l r : Value) :
  isModerate l = true ->
  isModerate r = true ->
  exists w,
    evalBinaryImpl host "/" l r = Return w
    /\ isFiniteValue w = negb (isZeroValue r).
Proof.
  intros Hl Hr.
  destruct (promoteToDec_moderate l Hl)
    as (sa & ca & ea & Ha & _ & Hca & Hea).
  destruct (promoteToDec_moderate r Hr)
    as (sb & cb & eb & Hb & Hz & Hcb & Heb).
  exists (demoteFromDec
            (Decimal.div (Decimal.Finite sa ca ea) (Decimal.Finite sb cb eb))).
  split.
  - unfold evalBinaryImpl; simpl. rewrite Ha, Hb. reflexivity.
  - rewrite isFiniteValue_demote, <- Hz.
    destruct (N.eqb_spec cb 0) as [->|Hnb].
    + simpl. destruct (N.eqb ca 0); reflexivity.
    + destruct (N.eqb_spec ca 0) as [->|Hna].
      * simpl. destruct (N.eqb_spec cb 0) as [|_]; [contradiction|].
        reflexivity.
      * now apply div_moderate.
Qed.

Lemma evalBinaryImpl_division_finite_witness :
  isModerate (VBigInt 1) = true
  /\ isModerate (VDecimal (Decimal.Finite false 25 (-2))) = true
  /\ exists w,
       evalBinaryImpl exampleHost "/" (VBigInt 1)
         (VDecimal (Decimal.Finite false 25 (-2))) = Return w
       /\ isFiniteValue w = true.
Proof.
  split; [reflexivity|]. split; [reflexivity|].
  apply (evalBinaryImpl_division_finite exampleHost (VBigInt 1)
           (VDecimal (Decimal.Finite false 25 (-2))) eq_refl eq_refl).
Defined.

(** Past the largest exponent the quotient of two finite numbers is an
    infinity: 1e9000000000000000 divided by 0.1. *)
Example division_overflow :
  evalBinaryImpl exampleHost "/"
    (VDecimal (Decimal.Finite false 1 Decimal.maxE))
    (VDecimal (Decimal.Finite false 1 (-1)))
  = Return (VDecimal (Decimal.Infinity false)).
Proof. vm_compute. reflexivity. Qed.

(** X12. A shift by a non-negative amount whose result the engine can
    hold: "<<" multiplies by the power of two, and ">>" by the same amount
    takes the product back to the number started from.  When the engine
    cannot hold the product of a shift by a positive amount, "<<" throws
    the engine's [RangeError]. *)
Theorem evalBinaryImpl_shift_round_trip host (l r : Z) :
  0 <= r ->
  (fitsBigInt host (l * 2 ^ r) = true ->
   evalBinaryImpl host "<<" (VBigInt l) (VBigInt r)
     = Return (VBigInt (l * 2 ^ r))
   /\ evalBinaryImpl host ">>" (VBigInt (l * 2 ^ r)) (VBigInt r)
      = Return (VBigInt l))
  /\ (0 < r -> fitsBigInt host (l * 2 ^ r) = false ->
      evalBinaryImpl host "<<" (VBigInt l) (VBigInt r) = Throw RangeError_).
Proof.
  intros Hr. unfold evalBinaryImpl; simpl. split.
  - intros Hfit. split.
    + destruct (Z.eq_dec r 0) as [->|Hr0].
      * rewrite leftShift_down by lia.
        now rewrite Z.shiftl_0_r, Z.mul_1_r.
      * rewrite leftShift_up by lia. now rewrite Hfit.
    + unfold signedRightShift. rewrite leftShift_down by lia.
      rewrite <- (Z.shiftl_mul_pow2 l r Hr), Z.shiftl_opp_r.
      rewrite Z.shiftr_shiftl_l by lia.
      now rewrite Z.sub_diag, Z.shiftl_0_r.
  - intros Hpos Hfit. rewrite leftShift_up by lia. now rewrite Hfit.
Qed.

Lemma evalBinaryImpl_shift_round_trip_witness :
  0 <= 4
  /\ fitsBigInt exampleHost (-3 * 2 ^ 4) = true
  /\ evalBinaryImpl exampleHost "<<" (VBigInt (-3)) (VBigInt 4)
     = Return (VBigInt (-48))
  /\ evalBinaryImpl exampleHost ">>" (VBigInt (-48)) (VBigInt 4)
     = Return (VBigInt (-3)).
Proof.
  assert (H : 0 <= 4) by discriminate.
  split; [exact H|]. split; [reflexivity|].
  exact (proj1 (evalBinaryImpl_shift_round_trip exampleHost (-3) 4 H) eq_refl).
Defined.

(** Below a hundred digits rounding to the precision changes nothing. *)
Lemma roundToPrecision_exact (s : bool) (c e : Z) :
  0 <= c < 10 ^ 100 -> Decimal.roundToPrecision s c e = Decimal.normal s c e.
Proof.
  intros Hc. unfold Decimal.roundToPrecision, Decimal.digits, Decimal.precision.
  pose proof (digits_aux_le (Z.to_nat (Z.log2 c)) c 100 Hc) as Hd.
  destruct (Decimal.digits_aux (Z.to_nat (Z.log2 c)) c <=? 100) eqn:Hle;
    [reflexivity|].
  apply Z.leb_gt in Hle. lia.
Qed.

(** An integer of at most a hundred digits passes the exponent test. *)
Lemma finalise_integer (s : bool) (c e z : Z) :
  Decimal.represents (Decimal.roundToPrecision s c e) z ->
  Z.abs z < 10 ^ 100 ->
  Decimal.represents (Decimal.finalise s c e) z.
Proof.
  intros Hrep Hz. unfold Decimal.finalise.
  now rewrite (inRange_represents _ z Hrep Hz).
Qed.

Lemma normal_represents (s : bool) (c e : Z) :
  0 <= c -> 0 <= e ->
  Decimal.represents (Decimal.normal s c e) (Decimal.signZ s * c * 10 ^ e).
Proof.
  intros Hc He. destruct (Z.eq_dec c 0) as [->|Hnz].
  - unfold Decimal.normal. simpl. unfold Decimal.pow10. simpl. lia.
  - destruct (normal_spec s c e) as (c' & e' & -> & Hc' & He' & Hv); [lia|].
    unfold Decimal.represents, Decimal.pow10.
    rewrite Z2N.id by lia.
    rewrite (Z.max_l e' 0), (Z.max_r (- e') 0) by lia.
    change (10 ^ 0) with 1. rewrite Z.mul_1_r.
    rewrite Hv.
    replace e' with ((e' - e) + e) at 1 by lia.
    rewrite Z.pow_add_r by lia. ring.
Qed.

Lemma finalise_represents (s : bool) (c e z : Z) :
  0 <= c -> 0 <= e -> c * 10 ^ e < 10 ^ 100 ->
  z = Decimal.signZ s * (c * 10 ^ e) ->
  Decimal.represents (Decimal.finalise s c e) z.
Proof.
  intros Hc He Hlt ->.
  pose proof (pow10_ge_1 e He).
  apply finalise_integer.
  - rewrite roundToPrecision_exact by nia.
    rewrite Z.mul_assoc. now apply normal_represents.
  - assert (0 <= c * 10 ^ e) by nia.
    destruct s; unfold Decimal.signZ; lia.
Qed.

Lemma signZ_negb (s : bool) : Decimal.signZ (negb s) = - Decimal.signZ s.
Proof. now destruct s. Qed.

Ltac arith_side :=
  solve [assumption | lia | nia | f_equal; lia | f_equal; nia
        | rewrite signZ_negb; lia | rewrite signZ_negb; nia].

Lemma add_same_represents (s : bool) (A ea B eb : Z) :
  0 <= A -> 0 <= B -> 0 <= ea -> 0 <= eb ->
  A * 10 ^ ea + B * 10 ^ eb < 10 ^ 100 ->
  Decimal.represents (Decimal.add_same true s A ea B eb)
    (Decimal.signZ s * (A * 10 ^ ea + B * 10 ^ eb)).
Proof.
  intros HA HB Hea Heb Hlt.
  pose proof (pow10_ge_1 ea Hea). pose proof (pow10_ge_1 eb Heb).
  unfold Decimal.add_same.
  destruct (B =? 0) eqn:HB0.
  - apply Z.eqb_eq in HB0. subst B. rewrite orb_true_r.
    apply finalise_represents; arith_side.
  - apply Z.eqb_neq in HB0. rewrite orb_false_r.
    destruct (A =? 0) eqn:HA0.
    + apply Z.eqb_eq in HA0. subst A.
      apply finalise_represents; arith_side.
    + destruct (align_spec A ea B eb Hea Heb) as (a & b & e & -> & He & Ha & Hb).
      assert (Hp : 0 < 10 ^ e) by (apply Z.pow_pos_nonneg; lia).
      apply finalise_represents; arith_side.
Qed.

Lemma sub_same_represents (s : bool) (A ea B eb : Z) :
  0 <= A -> 0 <= B -> 0 <= ea -> 0 <= eb ->
  Z.abs (A * 10 ^ ea - B * 10 ^ eb) < 10 ^ 100 ->
  Decimal.represents (Decimal.sub_same true s A ea B eb)
    (Decimal.signZ s * (A * 10 ^ ea - B * 10 ^ eb)).
Proof.
  intros HA HB Hea Heb Hlt.
  pose proof (pow10_ge_1 ea Hea). pose proof (pow10_ge_1 eb Heb).
  unfold Decimal.sub_same.
  destruct (B =? 0) eqn:HB0; cbn [negb].
  - apply Z.eqb_eq in HB0. subst B. rewrite orb_true_r.
    destruct (A =? 0) eqn:HA0; cbn [negb].
    + apply Z.eqb_eq in HA0. subst A. unfold Decimal.pow10. simpl. lia.
    + apply finalise_represents; arith_side.
  - apply Z.eqb_neq in HB0. rewrite orb_false_r.
    destruct (A =? 0) eqn:HA0.
    + apply Z.eqb_eq in HA0. subst A.
      apply finalise_represents; arith_side.
    + destruct (align_spec A ea B eb Hea Heb) as (a & b & e & -> & He & Ha & Hb).
      assert (Hp : 0 < 10 ^ e) by (apply Z.pow_pos_nonneg; lia).
      rewrite <- Ha, <- Hb in *.
      destruct (a =? b) eqn:Hab.
      * apply Z.eqb_eq in Hab. subst b. unfold Decimal.pow10. simpl. lia.
      * apply Z.eqb_neq in Hab.
        destruct (b <? a) eqn:Hba;
          [apply Z.ltb_lt in Hba | apply Z.ltb_ge in Hba];
          apply finalise_represents; arith_side.
Qed.

Lemma represents_eq (d : Decimal.t) (z z' : Z) :
  Decimal.represents d z -> z = z' -> Decimal.represents d z'.
Proof. now intros H <-. Qed.

Lemma sign_cases (a b : Z) :
  (Bool.eqb (a <? 0) (b <? 0) = true ->
   Decimal.signZ (b <? 0) = Decimal.signZ (a <? 0)
   /\ Z.abs a + Z.abs b = Z.abs (a + b))
  /\ (Bool.eqb (a <? 0) (b <? 0) = false ->
      Decimal.signZ (b <? 0) = - Decimal.signZ (a <? 0)
      /\ Z.abs a + Z.abs b = Z.abs (a - b)).
Proof.
  destruct (a <? 0) eqn:Ha, (b <? 0) eqn:Hb; simpl;
    (apply Z.ltb_lt in Ha || apply Z.ltb_ge in Ha);
    (apply Z.ltb_lt in Hb || apply Z.ltb_ge in Hb);
    split; intros H; try discriminate H; split; lia.
Qed.

Lemma plus_ofBigInt (a b : Z) :
  Z.abs (a + b) < 10 ^ 100 ->
  Decimal.represents
    (Decimal.plus (Decimal.ofBigInt a) (Decimal.ofBigInt b)) (a + b).
Proof.
  intros Hlt.
  destruct (ofBigInt_shape a) as (ca & ea & -> & Hea & Ha & _).
  destruct (ofBigInt_shape b) as (cb & eb & -> & Heb & Hb & _).
  pose proof (signZ_abs a) as Hsa. pose proof (signZ_abs b) as Hsb.
  pose proof (N2Z.is_nonneg ca). pose proof (N2Z.is_nonneg cb).
  unfold Decimal.plus, Decimal.plus_gen.
  destruct (sign_cases a b) as [Hsame Hdiff].
  destruct (Bool.eqb (a <? 0) (b <? 0)).
  - destruct (Hsame eq_refl) as [Hs Habs].
    eapply represents_eq; [apply add_same_represents; lia|].
    rewrite Ha, Hb. lia.
  - destruct (Hdiff eq_refl) as [Hs Habs].
    eapply represents_eq; [apply sub_same_represents; lia|].
    rewrite Ha, Hb. lia.
Qed.

Lemma minus_ofBigInt (a b : Z) :
  Z.abs (a - b) < 10 ^ 100 ->
  Decimal.represents
    (Decimal.minus (Decimal.ofBigInt a) (Decimal.ofBigInt b)) (a - b).
Proof.
  intros Hlt.
  destruct (ofBigInt_shape a) as (ca & ea & -> & Hea & Ha & _).
  destruct (ofBigInt_shape b) as (cb & eb & -> & Heb & Hb & _).
  pose proof (signZ_abs a) as Hsa. pose proof (signZ_abs b) as Hsb.
  pose proof (N2Z.is_nonneg ca). pose proof (N2Z.is_nonneg cb).
  unfold Decimal.minus, Decimal.minus_gen.
  destruct (sign_cases a b) as [Hsame Hdiff].
  destruct (Bool.eqb (a <? 0) (b <? 0)).
  - destruct (Hsame eq_refl) as [Hs Habs].
    eapply represents_eq; [apply sub_same_represents; lia|].
    rewrite Ha, Hb. lia.
  - destruct (Hdiff eq_refl) as [Hs Habs].
    eapply represents_eq; [apply add_same_represents; lia|].
    rewrite Ha, Hb. lia.
Qed.

Lemma signZ_xorb (s t : bool) :
  Decimal.signZ (xorb s t) = Decimal.signZ s * Decimal.signZ t.
Proof. now destruct s, t. Qed.

Lemma times_ofBigInt (a b : Z) :
  Z.abs (a * b) < 10 ^ 100 ->
  Decimal.represents
    (Decimal.times (Decimal.ofBigInt a) (Decimal.ofBigInt b)) (a * b).
Proof.
  intros Hlt.
  destruct (ofBigInt_shape a) as (ca & ea & -> & Hea & Ha & Hza).
  destruct (ofBigInt_shape b) as (cb & eb & -> & Heb & Hb & Hzb).
  pose proof (signZ_abs a) as Hsa. pose proof (signZ_abs b) as Hsb.
  pose proof (N2Z.is_nonneg ca). pose proof (N2Z.is_nonneg cb).
  unfold Decimal.times, Decimal.times_gen.
  destruct (N.eqb_spec ca 0) as [Hca|Hca]; simpl.
  - assert (a = 0) by tauto. subst a. unfold Decimal.pow10. simpl. lia.
  - destruct (N.eqb_spec cb 0) as [Hcb|Hcb].
    + assert (b = 0) by tauto. subst b. unfold Decimal.pow10. simpl. lia.
    + assert (Hprod : Z.of_N ca * Z.of_N cb * 10 ^ (ea + eb)
                      = Z.abs a * Z.abs b).
      { rewrite Z.pow_add_r by lia. rewrite <- Ha, <- Hb. ring. }
      apply finalise_represents; try lia;
        try (rewrite Hprod, <- Z.abs_mul; exact Hlt).
      rewrite Hprod, signZ_xorb. rewrite <- Hsa, <- Hsb at 1. ring.
Qed.

(** X13. Addition, subtraction and multiplication of bigints are exact as long
    as the result has at most a hundred digits: the detour through
    [Decimal] gives the integer sum, difference and product. *)
Theorem evalBinaryImpl_exact_integers host (a b : Z) :
  (Z.abs (a + b) < 10 ^ 100 ->
   evalBinaryImpl host "+" (VBigInt a) (VBigInt b) = Return (VBigInt (a + b)))
  /\ (Z.abs (a - b) < 10 ^ 100 ->
      evalBinaryImpl host "-" (VBigInt a) (VBigInt b)
        = Return (VBigInt (a - b)))
  /\ (Z.abs (a * b) < 10 ^ 100 ->
      evalBinaryImpl host "*" (VBigInt a) (VBigInt b)
        = Return (VBigInt (a * b))).
Proof.
  repeat split; intros Hlt; unfold evalBinaryImpl.
  - change (Return (demoteFromDec
              (Decimal.plus (Decimal.ofBigInt a) (Decimal.ofBigInt b)))
            = Return (VBigInt (a + b))).
    now rewrite (demoteFromDec_integral _ _ (plus_ofBigInt a b Hlt)).
  - change (Return (demoteFromDec
              (Decimal.minus (Decimal.ofBigInt a) (Decimal.ofBigInt b)))
            = Return (VBigInt (a - b))).
    now rewrite (demoteFromDec_integral _ _ (minus_ofBigInt a b Hlt)).
  - change (Return (demoteFromDec
              (Decimal.times (Decimal.ofBigInt a) (Decimal.ofBigInt b)))
            = Return (VBigInt (a * b))).
    now rewrite (demoteFromDec_integral _ _ (times_ofBigInt a b Hlt)).
Qed.

Lemma evalBinaryImpl_exact_integers_witness :
  Z.abs (- (10 ^ 60) * 10 ^ 39) < 10 ^ 100
  /\ evalBinaryImpl exampleHost "*" (VBigInt (- (10 ^ 60))) (VBigInt (10 ^ 39))
     = Return (VBigInt (- (10 ^ 60) * 10 ^ 39)).
Proof.
  assert (H : Z.abs (- (10 ^ 60) * 10 ^ 39) < 10 ^ 100) by reflexivity.
  split; [exact H|].
  apply (proj2 (proj2 (evalBinaryImpl_exact_integers exampleHost
                         (- (10 ^ 60)) (10 ^ 39))) H).
Defined.

Lemma times_quotient (sa sb : bool) (Q : Z) (cb : N) (eb : Z) :
  0 <= Q -> cb <> 0%N -> 0 <= eb ->
  exists cp ep,
    Decimal.times_gen false
      (Decimal.Finite (xorb sa sb) (Z.to_N Q) 0) (Decimal.Finite sb cb eb)
    = Decimal.Finite sa cp ep
    /\ 0 <= ep
    /\ Z.of_N cp * 10 ^ ep = Q * (Z.of_N cb * 10 ^ eb).
Proof.
  intros HQ Hcb Heb. unfold Decimal.times_gen.
  assert (Hs : xorb (xorb sa sb) sb = sa) by (now destruct sa, sb).
  rewrite Hs.
  destruct (N.eqb_spec (Z.to_N Q) 0) as [HQ0|HQ0]; simpl.
  - exists 0%N, 0. assert (Q = 0) by lia. subst Q. repeat split; auto; lia.
  - destruct (N.eqb_spec cb 0) as [|_]; [contradiction|].
    rewrite Z2N.id by lia.
    pose proof (N2Z.is_nonneg cb).
    assert (Hpos : 0 < Q * Z.of_N cb) by nia.
    destruct (normal_spec sa (Q * Z.of_N cb) eb Hpos)
      as (c' & e' & -> & Hc' & He' & Hv).
    exists (Z.to_N c'), e'. rewrite Z2N.id by lia.
    repeat split; auto; try lia.
    replace e' with ((e' - eb) + eb) at 1 by lia.
    rewrite Z.pow_add_r by lia.
    transitivity (c' * 10 ^ (e' - eb) * 10 ^ eb); [ring|].
    rewrite <- Hv. ring.
Qed.

Lemma modulo_ofBigInt (a b : Z) :
  b <> 0 -> Z.abs b <= 10 ^ 100 ->
  Decimal.represents
    (Decimal.modulo (Decimal.ofBigInt a) (Decimal.ofBigInt b)) (Z.rem a b).
Proof.
  intros Hb0 Hble.
  destruct (ofBigInt_shape a) as (ca & ea & -> & Hea & Ha & Hza).
  destruct (ofBigInt_shape b) as (cb & eb & -> & Heb & Hb & Hzb).
  pose proof (N2Z.is_nonneg ca) as Hca0. pose proof (N2Z.is_nonneg cb) as Hcb0.
  unfold Decimal.modulo.
  destruct (N.eqb_spec cb 0) as [Hcb|Hcb]; [tauto|].
  destruct (N.eqb_spec ca 0) as [Hca|Hca].
  - assert (a = 0) by tauto. subst a ca. rewrite Z.rem_0_l by exact Hb0.
    unfold Decimal.round. apply finalise_represents; simpl; lia.
  - assert (Ha0 : a <> 0) by tauto.
    destruct (align_spec (Z.of_N ca) ea (Z.of_N cb) eb Hea Heb)
      as (x & y & e & -> & He & Hx & Hy).
    assert (Hp : 0 < 10 ^ e) by (apply Z.pow_pos_nonneg; lia).
    assert (Hy0 : 0 < y) by nia.
    assert (Hx0 : 0 <= x) by nia.
    assert (HQ : x / y = Z.abs a / Z.abs b).
    { rewrite <- Ha, <- Hb, <- Hx, <- Hy.
      symmetry. apply Z.div_mul_cancel_r; lia. }
    assert (HQ0 : 0 <= x / y) by (apply Z.div_pos; lia).
    destruct (times_quotient (a <? 0) (b <? 0) (x / y) cb eb HQ0 Hcb Heb)
      as (cp & ep & -> & Hep & Hp').
    unfold Decimal.minus, Decimal.minus_gen. rewrite Bool.eqb_reflx.
    pose proof (N2Z.is_nonneg cp).
    assert (Hmod : Z.of_N ca * 10 ^ ea - Z.of_N cp * 10 ^ ep
                   = Z.abs a mod Z.abs b).
    { rewrite Hp', Ha, Hb, HQ, Z.mod_eq by lia. ring. }
    pose proof (Z.mod_pos_bound (Z.abs a) (Z.abs b)) as Hbound.
    eapply represents_eq;
      [apply sub_same_represents; try lia; rewrite Hmod; lia|].
    rewrite Hmod, Z.rem_mod by exact Hb0. f_equal.
    unfold Decimal.signZ.
    destruct (a <? 0) eqn:Hneg;
      [apply Z.ltb_lt in Hneg | apply Z.ltb_ge in Hneg]; lia.
Qed.

(** X14. On bigints with a non-zero divisor of at most a hundred digits, "%" is
    the remainder of the division truncated towards zero: it has the sign
    of the dividend. *)
Theorem evalBinaryImpl_modulo_truncates host (a b : Z) :
  b <> 0 ->
  Z.abs b <= 10 ^ 100 ->
  evalBinaryImpl host "%" (VBigInt a) (VBigInt b) = Return (VBigInt (Z.rem a b)).
Proof.
  intros Hb0 Hble. unfold evalBinaryImpl.
  change (Return (demoteFromDec
            (Decimal.modulo (Decimal.ofBigInt a) (Decimal.ofBigInt b)))
          = Return (VBigInt (Z.rem a b))).
  now rewrite (demoteFromDec_integral _ _ (modulo_ofBigInt a b Hb0 Hble)).
Qed.

Lemma evalBinaryImpl_modulo_truncates_witness :
  3 <> 0 /\ Z.abs 3 <= 10 ^ 100
  /\ evalBinaryImpl exampleHost "%" (VBigInt (-7)) (VBigInt 3)
     = Return (VBigInt (-1)).
Proof.
  assert (H0 : 3 <> 0) by discriminate.
  assert (H1 : Z.abs 3 <= 10 ^ 100) by discriminate.
  split; [exact H0|]. split; [exact H1|].
  exact (evalBinaryImpl_modulo_truncates exampleHost (-7) 3 H0 H1).
Defined.

(** [normal] on a coefficient and exponent that stand for the integer
    [z], the exponent being of either sign. *)
Lemma normal_integer (s : bool) (c e z : Z) :
  0 < c ->
  c * 10 ^ Z.max e 0 = z * 10 ^ Z.max (- e) 0 ->
  Decimal.represents (Decimal.normal s c e) (Decimal.signZ s * z).
Proof.
  intros Hc Hz.
  destruct (normal_spec s c e Hc) as (c' & e' & -> & Hc' & He' & Hv).
  unfold Decimal.represents, Decimal.pow10. rewrite Z2N.id by lia.
  rewrite <- !Z.mul_assoc. f_equal.
  assert (Hd : 0 < 10 ^ (e' - e)) by (apply Z.pow_pos_nonneg; lia).
  destruct (Z.le_gt_cases 0 e) as [He|He].
  - rewrite (Z.max_l e 0), (Z.max_r (- e) 0) in Hz by lia.
    rewrite (Z.max_l e' 0), (Z.max_r (- e') 0) by lia.
    change (10 ^ 0) with 1 in *. rewrite Z.mul_1_r in *.
    rewrite <- Hz, Hv.
    replace e' with ((e' - e) + e) at 1 by lia.
    rewrite Z.pow_add_r by lia. ring.
  - rewrite (Z.max_r e 0), (Z.max_l (- e) 0) in Hz by lia.
    change (10 ^ 0) with 1 in Hz. rewrite Z.mul_1_r in Hz.
    destruct (Z.le_gt_cases 0 e') as [He0|He0].
    + rewrite (Z.max_l e' 0), (Z.max_r (- e') 0) by lia.
      change (10 ^ 0) with 1. rewrite Z.mul_1_r.
      assert (Hsplit : 10 ^ (e' - e) = 10 ^ e' * 10 ^ (- e)).
      { rewrite <- Z.pow_add_r by lia. f_equal; lia. }
      assert (Hp : 0 < 10 ^ (- e)) by (apply Z.pow_pos_nonneg; lia).
      apply (Z.mul_reg_r _ _ (10 ^ (- e))); [lia|].
      rewrite <- Hz, Hv, Hsplit. ring.
    + rewrite (Z.max_r e' 0), (Z.max_l (- e') 0) by lia.
      change (10 ^ 0) with 1. rewrite Z.mul_1_r.
      assert (Hsplit : 10 ^ (- e) = 10 ^ (- e') * 10 ^ (e' - e)).
      { rewrite <- Z.pow_add_r by lia. f_equal; lia. }
      apply (Z.mul_reg_r _ _ (10 ^ (e' - e))); [lia|].
      rewrite <- Hv, Hz, Hsplit. ring.
Qed.

(** Rounding an integer below a hundred digits that is written with [M]
    further zeros leaves the integer. *)
Lemma roundToPrecision_scaled (s : bool) (z M : Z) :
  0 < z < 10 ^ 100 -> 0 <= M ->
  Decimal.represents (Decimal.roundToPrecision s (z * 10 ^ M) (- M))
    (Decimal.signZ s * z).
Proof.
  intros Hz HM.
  assert (HpM : 0 < 10 ^ M) by (apply Z.pow_pos_nonneg; lia).
  assert (Hc : 0 < z * 10 ^ M) by nia.
  unfold Decimal.roundToPrecision, Decimal.precision, Decimal.pow10.
  destruct (Decimal.digits (z * 10 ^ M) <=? 100) eqn:Hle.
  - apply normal_integer; [exact Hc|].
    rewrite (Z.max_r (- M) 0), (Z.max_l (- - M) 0) by lia.
    rewrite Z.opp_involutive. change (10 ^ 0) with 1. ring.
  - apply Z.leb_gt in Hle.
    set (n := Decimal.digits (z * 10 ^ M)) in *.
    assert (Hn : n <= 100 + M).
    { unfold n, Decimal.digits. apply digits_aux_le; [|lia].
      rewrite Z.pow_add_r by lia. nia. }
    assert (Hsplit : 10 ^ M = 10 ^ (M - (n - 100)) * 10 ^ (n - 100)).
    { rewrite <- Z.pow_add_r by lia. f_equal; lia. }
    assert (Hk : 0 < 10 ^ (n - 100)) by (apply Z.pow_pos_nonneg; lia).
    assert (Hk' : 0 < 10 ^ (M - (n - 100))) by (apply Z.pow_pos_nonneg; lia).
    assert (Hq : z * 10 ^ M / 10 ^ (n - 100) = z * 10 ^ (M - (n - 100))).
    { rewrite Hsplit, Z.mul_assoc. apply Z.div_mul. lia. }
    assert (Hr : (z * 10 ^ M) mod 10 ^ (n - 100) = 0).
    { rewrite Hsplit, Z.mul_assoc. apply Z.mod_mul. lia. }
    rewrite Hq, Hr.
    destruct (10 ^ (n - 100) <=? 2 * 0) eqn:Hhalf;
      [apply Z.leb_le in Hhalf; lia|].
    apply normal_integer; [nia|].
    rewrite (Z.max_r (- M + (n - 100)) 0),
      (Z.max_l (- (- M + (n - 100))) 0) by lia.
    change (10 ^ 0) with 1.
    replace (- (- M + (n - 100))) with (M - (n - 100)) by lia. ring.
Qed.

Lemma finalise_scaled (s : bool) (z M : Z) :
  0 < z < 10 ^ 100 -> 0 <= M ->
  Decimal.represents (Decimal.finalise s (z * 10 ^ M) (- M))
    (Decimal.signZ s * z).
Proof.
  intros Hz HM. apply finalise_integer.
  - now apply roundToPrecision_scaled.
  - destruct s; unfold Decimal.signZ; lia.
Qed.

Lemma div_ofBigInt (a b z : Z) :
  b <> 0 -> a = b * z -> Z.abs z < 10 ^ 100 ->
  Decimal.represents
    (Decimal.div (Decimal.ofBigInt a) (Decimal.ofBigInt b)) z.
Proof.
  intros Hb0 Hab Hz.
  destruct (ofBigInt_shape a) as (ca & ea & -> & Hea & Ha & Hza).
  destruct (ofBigInt_shape b) as (cb & eb & -> & Heb & Hb & Hzb).
  pose proof (N2Z.is_nonneg ca) as Hca0. pose proof (N2Z.is_nonneg cb) as Hcb0.
  pose proof (signZ_abs a) as Hsa. pose proof (signZ_abs b) as Hsb.
  unfold Decimal.div.
  destruct (N.eqb_spec cb 0) as [Hcb|Hcb]; [tauto|].
  destruct (N.eqb_spec ca 0) as [Hca|Hca].
  - assert (a = 0) by tauto. assert (z = 0) by nia. subst.
    unfold Decimal.represents, Decimal.pow10. simpl. lia.
  - assert (Ha0 : a <> 0) by tauto.
    assert (Hz0 : z <> 0) by nia.
    assert (Habs : Z.abs a = Z.abs z * Z.abs b)
      by (rewrite Hab, Z.abs_mul; ring).
    set (A := Z.of_N ca) in *. set (B := Z.of_N cb) in *.
    assert (HA1 : 1 <= A) by (unfold A; lia).
    assert (HB1 : 1 <= B) by (unfold B; lia).
    destruct (digits_spec A HA1) as (HdA & HAlo & _).
    destruct (digits_spec B HB1) as (HdB & _ & HBhi).
    unfold Decimal.precision, Decimal.pow10.
    set (dA := Decimal.digits A) in *. set (dB := Decimal.digits B) in *.
    set (k := Z.max 0 (100 + 1 + dB - dA)).
    assert (Hk : 0 <= k) by (unfold k; lia).
    assert (Hpk : 0 < 10 ^ k) by (apply Z.pow_pos_nonneg; lia).
    assert (Hpeb : 0 < 10 ^ eb) by (apply Z.pow_pos_nonneg; lia).
    assert (Hmain : A * 10 ^ ea = Z.abs z * B * 10 ^ eb)
      by (rewrite Ha, Habs, <- Hb; ring).
    assert (Hbig : 10 ^ 100 * B < A * 10 ^ k).
    { assert (H1 : 10 ^ (100 + dB) <= 10 ^ (dA - 1 + k))
        by (apply Z.pow_le_mono_r; unfold k; lia).
      rewrite Z.pow_add_r in H1 by lia.
      rewrite (Z.pow_add_r 10 (dA - 1) k) in H1 by lia.
      assert (0 < 10 ^ 100) by (apply Z.pow_pos_nonneg; lia).
      nia. }
    assert (HE : ea - eb - k <= 0).
    { destruct (Z.le_gt_cases (ea - eb - k) 0) as [|Hgt]; [assumption|].
      exfalso.
      assert (Hsplit : 10 ^ ea = 10 ^ (ea - eb - k) * 10 ^ k * 10 ^ eb).
      { rewrite <- !Z.pow_add_r by lia. f_equal; lia. }
      assert (HpE : 1 <= 10 ^ (ea - eb - k)) by (apply pow10_ge_1; lia).
      rewrite Hsplit in Hmain.
      assert (Hcancel : A * 10 ^ (ea - eb - k) * 10 ^ k = Z.abs z * B).
      { apply (Z.mul_reg_r _ _ (10 ^ eb)); [lia|]. rewrite <- Hmain. ring. }
      nia. }
    set (M := - (ea - eb - k)).
    assert (HM : 0 <= M) by (unfold M; lia).
    assert (HpM : 0 < 10 ^ M) by (apply Z.pow_pos_nonneg; lia).
    assert (Hq : A * 10 ^ k = Z.abs z * 10 ^ M * B).
    { apply (Z.mul_reg_r _ _ (10 ^ eb)); [lia|].
      assert (Hsplit : 10 ^ k * 10 ^ eb = 10 ^ ea * 10 ^ M).
      { rewrite <- !Z.pow_add_r by lia. f_equal; unfold M; lia. }
      transitivity (A * 10 ^ ea * 10 ^ M).
      - rewrite <- !Z.mul_assoc, Hsplit. ring.
      - rewrite Hmain. ring. }
    rewrite Hq, Z.div_mul by lia.
    replace (ea - eb - k) with (- M) by (unfold M; lia).
    eapply represents_eq; [apply finalise_scaled; lia|].
    rewrite signZ_xorb.
    remember (Decimal.signZ (a <? 0)) as sA eqn:EsA.
    remember (Decimal.signZ (b <? 0)) as sB eqn:EsB.
    assert (Hsq : sB * sB = 1) by (subst sB; destruct (b <? 0); reflexivity).
    assert (H1 : sA * (Z.abs z * Z.abs b) = sB * Z.abs b * z).
    { transitivity (sA * Z.abs a); [rewrite Habs; ring|].
      rewrite Hsa, Hsb. exact Hab. }
    apply (Z.mul_reg_r _ _ (Z.abs b)); [lia|].
    transitivity (sB * (sA * (Z.abs z * Z.abs b))); [ring|].
    rewrite H1.
    transitivity (sB * sB * (Z.abs b * z)); [ring|].
    rewrite Hsq. ring.
Qed.

(** X15. Division of bigints is exact when the divisor divides the dividend:
    for a non-zero [b] and a quotient [z] of at most a hundred digits,
    [b * z] divided by [b] is the bigint [z], not a [Decimal]. *)
Theorem evalBinaryImpl_exact_division host (b z : Z) :
  b <> 0 ->
  Z.abs z < 10 ^ 100 ->
  evalBinaryImpl host "/" (VBigInt (b * z)) (VBigInt b) = Return (VBigInt z).
Proof.
  intros Hb0 Hz. unfold evalBinaryImpl.
  change (Return (demoteFromDec
            (Decimal.div (Decimal.ofBigInt (b * z)) (Decimal.ofBigInt b)))
          = Return (VBigInt z)).
  now rewrite (demoteFromDec_integral _ _
                 (div_ofBigInt (b * z) b z Hb0 eq_refl Hz)).
Qed.

Lemma evalBinaryImpl_exact_division_witness :
  10 ^ 9 <> 0 /\ Z.abs (-3) < 10 ^ 100
  /\ evalBinaryImpl exampleHost "/" (VBigInt (10 ^ 9 * -3)) (VBigInt (10 ^ 9))
     = Return (VBigInt (-3)).
Proof.
  assert (H0 : 10 ^ 9 <> 0) by discriminate.
  assert (H1 : Z.abs (-3) < 10 ^ 100) by reflexivity.
  split; [exact H0|]. split; [exact H1|].
  exact (evalBinaryImpl_exact_division exampleHost (10 ^ 9) (-3) H0 H1).
Defined.
